(** * Terrain Mapper: the terrain identifier map and the terrain entity

    A shallow embedding of [scripts/Terrain.js]: the class [TerrainMap]
    (a JavaScript [Map] with a private [#nextId] counter) and the parts of
    the class [Terrain] that read and write the flags of an active effect.

    The ids of a terrain map are idealised: a finite number is an exact
    rational, so that [1.5] is a number and [k + 1] never rounds, and
    [NaN] is kept as a value of its own, because [#findNextId] can produce
    it; the infinities and the rounding of binary64 are left out there.
    The numbers that the flags of an active effect hold are binary64
    numbers, and the sums of [elevationMinMax] round as they do in the
    source. *)

From Stdlib Require Import ZArith QArith List String Bool Lia Floats.
Import ListNotations.

Set Implicit Arguments.

(** ** JavaScript numbers and the values passed as ids *)

Module Js.

Inductive number : Type :=
| Fin (q : Q)
| NaN.

Definition of_Z (z : Z) : number := Fin (inject_Z z).
Definition of_nat (n : nat) : number := of_Z (Z.of_nat n).

(** [a + b] and [a - b] on the idealised numbers: exact, where binary64
    rounds.  The two agree on the integers between [- 2 ^ 53] and
    [2 ^ 53]; above, [k + 1] of this model is not the source's. *)
Definition add (a b : number) : number :=
  match a, b with
  | Fin x, Fin y => Fin (x + y)%Q
  | _, _ => NaN
  end.

Definition sub (a b : number) : number :=
  match a, b with
  | Fin x, Fin y => Fin (x - y)%Q
  | _, _ => NaN
  end.

(** [a === b] on numbers: [NaN] is not equal to itself. *)
Definition strict_eq (a b : number) : bool :=
  match a, b with
  | Fin x, Fin y => Qeq_bool x y
  | _, _ => false
  end.

(** SameValueZero, the equality of [Map] keys: [NaN] is equal to itself. *)
Definition same_value_zero (a b : number) : bool :=
  match a, b with
  | Fin x, Fin y => Qeq_bool x y
  | NaN, NaN => true
  | _, _ => false
  end.

(** [a < b] and [a > b]: false as soon as one side is [NaN]. *)
Definition lt (a b : number) : bool :=
  match a, b with
  | Fin x, Fin y => negb (Qle_bool y x)
  | _, _ => false
  end.

Definition gt (a b : number) : bool := lt b a.

(** [Number.isInteger] on a number. *)
Definition isInteger (a : number) : bool :=
  match a with
  | Fin x => (Z.rem (Qnum x) (Zpos (Qden x)) =? 0)%Z
  | NaN => false
  end.

(** The primitive values: what a caller can pass where an id is
    expected. *)
Inductive value : Type :=
| VUndefined
| VNull
| VBoolean (b : bool)
| VNumber (n : number)
| VString (s : string).

(** [v ?? d] *)
Definition nullish_coalesce (v d : value) : value :=
  match v with
  | VUndefined | VNull => d
  | _ => v
  end.

(** [Number.isInteger(v)]: false for whatever is not a number. *)
Definition Number_isInteger (v : value) : bool :=
  match v with
  | VNumber n => isInteger n
  | _ => false
  end.

(** The number [n] is the integer [z]. *)
Definition is_integer (n : number) (z : Z) : Prop :=
  match n with
  | Fin q => q == inject_Z z
  | NaN => False
  end.

(** The value [v] is a number, and this number is an integer from 1 on. *)
Definition positive_integer (v : value) : Prop :=
  match v with
  | VNumber n => exists z : Z, (1 <= z)%Z /\ is_integer n z
  | _ => False
  end.

(** What can be a key or the counter of a terrain map: a positive
    integer, or [NaN]. *)
Definition integer_or_NaN (n : number) : Prop :=
  n = NaN \/ positive_integer (VNumber n).

(** [undefined + 1] is [NaN]; [None] stands for [undefined]. *)
Definition add_to_optional (v : option number) (b : number) : number :=
  match v with
  | Some a => add a b
  | None => NaN
  end.

End Js.

(** ** The native [Map], in insertion order *)

Module NativeMap.
Section Entries.

Variable V : Type.

Definition t := list (Js.number * V).

Definition key_is (k : Js.number) (e : Js.number * V) : bool :=
  Js.same_value_zero (fst e) k.

Definition has (k : Js.number) (m : t) : bool := existsb (key_is k) m.

Fixpoint get (k : Js.number) (m : t) : option V :=
  match m with
  | [] => None
  | e :: rest => if key_is k e then Some (snd e) else get k rest
  end.

(** [Map.prototype.set]: an existing key keeps its place, a new key goes
    to the end. *)
Fixpoint set (k : Js.number) (v : V) (m : t) : t :=
  match m with
  | [] => [(k, v)]
  | e :: rest => if key_is k e then (fst e, v) :: rest else e :: set k v rest
  end.

(** [Map.prototype.delete] returns whether an entry was removed. *)
Fixpoint delete (k : Js.number) (m : t) : bool * t :=
  match m with
  | [] => (false, [])
  | e :: rest =>
      if key_is k e then (true, rest)
      else let r := delete k rest in (fst r, e :: snd r)
  end.

Definition size (m : t) : nat := List.length m.

Definition keys (m : t) : list Js.number := map fst m.

(** No two keys are the same for the map. *)
Fixpoint distinct (keys : list Js.number) : Prop :=
  match keys with
  | [] => True
  | k :: rest =>
      existsb (fun k' => Js.same_value_zero k' k) rest = false /\ distinct rest
  end.

End Entries.
End NativeMap.

(** ** [Array.prototype.sort] and [Array.prototype.find] on arrays of keys *)

Module JsArray.

(** The comparator [(a, b) => a - b] asks for [b] before [a] when the
    difference is positive; a [NaN] difference counts as [+0]. *)
Definition comes_after (a b : Js.number) : bool :=
  Js.gt (Js.sub a b) (Js.of_Z 0).

Fixpoint insert (x : Js.number) (sorted : list Js.number) : list Js.number :=
  match sorted with
  | [] => [x]
  | y :: rest => if comes_after x y then y :: insert x rest else x :: y :: rest
  end.

(** A stable sort, as [Array.prototype.sort] is.  On integers, which
    the comparator orders, every sort gives this result.  With [NaN] among
    the keys the comparator is not consistent and the language leaves the
    order to the implementation: this insertion sort is then one possible
    order only, and the statements on sorted keys below are about
    integer keys. *)
Definition sort (l : list Js.number) : list Js.number :=
  fold_right insert [] l.

(** [keys.find((k, idx) => keys[idx + 1] !== k + 1)]: out of range,
    [keys[idx + 1]] is [undefined], which differs from every number. *)
Fixpoint find_lastConsecutive (keys : list Js.number) : option Js.number :=
  match keys with
  | [] => None
  | k :: rest =>
      match rest with
      | [] => Some k
      | k' :: _ =>
          if negb (Js.strict_eq k' (Js.add k (Js.of_Z 1))) then Some k
          else find_lastConsecutive rest
      end
  end.

(** The array [[a, a + 1, ..., a + n - 1]]. *)
Fixpoint consecutive (a : Z) (n : nat) : list Js.number :=
  match n with
  | O => []
  | S n' => Js.of_Z a :: consecutive (a + 1) n'
  end.

(** The same insertion sort on integers, and the arrays it produces when
    no integer comes twice. *)
Fixpoint insert_Z (x : Z) (sorted : list Z) : list Z :=
  match sorted with
  | [] => [x]
  | y :: rest => if (y <? x)%Z then y :: insert_Z x rest else x :: y :: rest
  end.

Definition sort_Z (l : list Z) : list Z := fold_right insert_Z [] l.

Fixpoint increasing (l : list Z) : Prop :=
  match l with
  | [] => True
  | x :: rest =>
      match rest with
      | [] => True
      | y :: _ => (x < y)%Z /\ increasing rest
      end
  end.

End JsArray.

(** ** [class TerrainMap extends Map] *)

Module TerrainMap.

Inductive message : Type :=
| Error_id_present
| Error_id_invalid (id : Js.value)
| Warn_exceeds_maximum (id : Js.number) (maximum : Js.number).

Section WithTerrain.

Variable Terrain : Type.

Record t : Type := Build {
  entries : NativeMap.t Terrain;
  nextId : Js.number
}.

(** [MAX_TERRAINS = Math.pow(2, 5) - 1] *)
Definition MAX_TERRAINS : Js.number := Js.of_Z (2 ^ 5 - 1)%Z.

(** What a method leaves behind: its return value, what it wrote to the
    console, and the map. *)
Record outcome (R : Type) : Type := Outcome {
  returned : R;
  console : list message;
  after : t
}.

(** [new TerrainMap()] *)
Definition create : t := Build [] (Js.of_Z 1).

Definition size (m : t) : nat := NativeMap.size (entries m).
Definition has (id : Js.number) (m : t) : bool := NativeMap.has id (entries m).
Definition get (id : Js.number) (m : t) : option Terrain :=
  NativeMap.get id (entries m).
Definition keys (m : t) : list Js.number := NativeMap.keys (entries m).

(** [#findNextId()]: [lastConsecutiveKey + 1 ?? 1] is
    [(lastConsecutiveKey + 1) ?? 1], and a sum is never nullish. *)
Definition findNextId (m : t) : Js.number :=
  if Js.strict_eq (Js.of_nat (size m)) (Js.sub (nextId m) (Js.of_Z 1))
  then Js.add (nextId m) (Js.of_Z 1)
  else
    let keys := JsArray.sort (keys m) in
    let lastConsecutiveKey := JsArray.find_lastConsecutive keys in
    match Js.nullish_coalesce
            (Js.VNumber (Js.add_to_optional lastConsecutiveKey (Js.of_Z 1)))
            (Js.VNumber (Js.of_Z 1)) with
    | Js.VNumber n => n
    | _ => Js.NaN
    end.

Definition warn_if_exceeds (id : Js.number) : list message :=
  if Js.gt id MAX_TERRAINS then [Warn_exceeds_maximum id MAX_TERRAINS] else [].

(** [super.set(id, terrain); this.#nextId = this.#findNextId();] *)
Definition store (id : Js.number) (terrain : Terrain) (m : t) : t :=
  let m' := Build (NativeMap.set id terrain (entries m)) (nextId m) in
  Build (entries m') (findNextId m').

(** [this.has(id)] for whatever the caller passed: every key of the map is
    a number, so no other value is found. *)
Definition has_value (id : Js.value) (m : t) : bool :=
  match id with
  | Js.VNumber n => has n m
  | _ => false
  end.

(** [set(id, terrain, override = false)] *)
Definition set (id : Js.value) (terrain : Terrain) (override : bool) (m : t)
  : outcome (option Js.number) :=
  let id := Js.nullish_coalesce id (Js.VNumber (nextId m)) in
  if negb override && has_value id m then Outcome None [Error_id_present] m
  else
    match id with
    | Js.VNumber n =>
        if negb (Js.isInteger n) || Js.lt n (Js.of_Z 1)
        then Outcome None [Error_id_invalid id] m
        else Outcome (Some n) (warn_if_exceeds n) (store n terrain m)
    | _ => Outcome None [Error_id_invalid id] m
    end.

(** [add(terrain)] *)
Definition add (terrain : Terrain) (m : t) : outcome Js.number :=
  let id := nextId m in
  Outcome id (warn_if_exceeds id) (store id terrain m).

(** [clear()] *)
Definition clear (m : t) : t := Build [] (Js.of_Z 1).

(** [delete(id)], for a number [id]: no other value is a key. *)
Definition delete (id : Js.number) (m : t) : outcome bool :=
  let r := NativeMap.delete id (entries m) in
  if negb (fst r) then Outcome false [] m
  else
    let m' := Build (snd r) (nextId m) in
    if Js.gt (nextId m') id
    then Outcome true [] (Build (entries m') (findNextId m'))
    else Outcome true [] m'.

(** [add] called once for each terrain, from left to right: the ids it
    returned and the map at the end. *)
Fixpoint add_all (terrains : list Terrain) (m : t) : list Js.number * t :=
  match terrains with
  | [] => ([], m)
  | terrain :: rest =>
      let o := add terrain m in
      let r := add_all rest (after o) in
      (returned o :: fst r, snd r)
  end.

(** The maps a caller can build with the public methods. *)
Inductive reachable : t -> Prop :=
| reachable_create : reachable create
| reachable_set id terrain override m :
    reachable m -> reachable (after (set id terrain override m))
| reachable_add terrain m :
    reachable m -> reachable (after (add terrain m))
| reachable_clear m :
    reachable m -> reachable (clear m)
| reachable_delete id m :
    reachable m -> reachable (after (delete id m)).

(** The maps a caller can build without [delete]. *)
Inductive reachable_without_delete : t -> Prop :=
| without_delete_create : reachable_without_delete create
| without_delete_set id terrain override m :
    reachable_without_delete m ->
    reachable_without_delete (after (set id terrain override m))
| without_delete_add terrain m :
    reachable_without_delete m ->
    reachable_without_delete (after (add terrain m))
| without_delete_clear m :
    reachable_without_delete m -> reachable_without_delete (clear m).

(** The keys and the counter are positive integers or [NaN]; they are
    positive integers. *)
Definition sound (m : t) : Prop :=
  Forall Js.integer_or_NaN (keys m) /\ Js.integer_or_NaN (nextId m).

Definition all_positive (m : t) : Prop :=
  Forall (fun k => Js.positive_integer (Js.VNumber k)) (keys m) /\
  Js.positive_integer (Js.VNumber (nextId m)).

(** [z] is the smallest positive integer that is not a key of [m]. *)
Definition smallest_unused (m : t) (z : Z) : Prop :=
  (1 <= z)%Z /\ has (Js.of_Z z) m = false /\
  forall y : Z, (1 <= y < z)%Z -> has (Js.of_Z y) m = true.

(** Among the ids from 1 up to, and without, [pointer], the id [id] is the
    only one that is not a key of [m]. *)
Definition only_gap_below (pointer id : Z) (m : t) : Prop :=
  forall y : Z, (1 <= y < pointer)%Z ->
    (has (Js.of_Z y) m = false <-> y = id).

(** The keys are exactly [1, ..., k], inserted in this order, and the
    counter stands at [k + 1]. *)
Definition dense (k : nat) (m : t) : Prop :=
  keys m = JsArray.consecutive 1 k /\ nextId m = Js.of_Z (1 + Z.of_nat k).

End WithTerrain.
End TerrainMap.

(** ** The active effect that stores a terrain *)

Module ActiveEffect.

(** What a flag holds, and what [getFlag] gives: [undefined], or data that
    goes through JSON.  A number is a binary64 number; of an array or a
    plain object the model keeps the string that ToPrimitive makes of it,
    which is all that [+] asks for. *)
Inductive data : Type :=
| Undefined
| Null
| Boolean (b : bool)
| Number (d : float)
| Text (s : string)
| Structured (text : string).

(** ToNumber on the values that [+] adds as numbers. *)
Definition ToNumber (v : data) : float :=
  match v with
  | Undefined => nan
  | Null => 0%float
  | Boolean b => if b then 1%float else 0%float
  | Number d => d
  | Text _ | Structured _ => nan
  end.

Section Plus.

(** Number::toString is left open. *)
Variable Number_toString : float -> string.

Definition ToString (v : data) : string :=
  match v with
  | Undefined => "undefined"
  | Null => "null"
  | Boolean b => if b then "true" else "false"
  | Number d => Number_toString d
  | Text s => s
  | Structured text => text
  end.

(** [a + b]: a concatenation when ToPrimitive makes a string of one side,
    the binary64 sum of the two numbers otherwise. *)
Definition plus (a b : data) : data :=
  match a, b with
  | (Text _ | Structured _), _ | _, (Text _ | Structured _) =>
      Text (ToString a ++ ToString b)
  | _, _ => Number (ToNumber a + ToNumber b)%float
  end.

End Plus.

(** The values that [+] adds as numbers. *)
Definition adds_as_number (v : data) : Prop :=
  match v with
  | Text _ | Structured _ => False
  | _ => True
  end.

(** What [Terrain] passes as the key of a flag: a string of [FLAGS], or
    the object [FLAGS.ANCHOR] itself, whose members are [VALUE] and
    [CHOICES]. *)
Inductive flag : Type :=
| Flag (key : string)
| Flag_ANCHOR_object.

Definition flag_eqb (a b : flag) : bool :=
  match a, b with
  | Flag x, Flag y => String.eqb x y
  | Flag_ANCHOR_object, Flag_ANCHOR_object => true
  | _, _ => false
  end.

(** The document, as far as [Terrain] reads and writes it; a flag is
    filed under a scope and a key. *)
Record t : Type := Build {
  id : string;
  uuid : string;
  name : string;
  description : string;
  icon : string;
  flags : list (string * flag * data)
}.

Definition filed_under (scope : string) (key : flag)
    (entry : string * flag * data) : bool :=
  String.eqb (fst (fst entry)) scope && flag_eqb (snd (fst entry)) key.

(** [getFlag(scope, key)]: [undefined] when the flag is not set. *)
Definition getFlag (scope : string) (key : flag) (e : t) : data :=
  match find (filed_under scope key) (flags e) with
  | Some entry => snd entry
  | None => Undefined
  end.

Fixpoint put_flag (scope : string) (key : flag) (value : data)
    (l : list (string * flag * data)) : list (string * flag * data) :=
  match l with
  | [] => [(scope, key, value)]
  | entry :: rest =>
      if filed_under scope key entry then (scope, key, value) :: rest
      else entry :: put_flag scope key value rest
  end.

(** [setFlag(scope, key, value)]: the document once the write is done. *)
Definition setFlag (scope : string) (key : flag) (value : data) (e : t) : t :=
  Build (id e) (uuid e) (name e) (description e) (icon e)
        (put_flag scope key value (flags e)).

Definition with_name (value : string) (e : t) : t :=
  Build (id e) (uuid e) value (description e) (icon e) (flags e).

Definition with_description (value : string) (e : t) : t :=
  Build (id e) (uuid e) (name e) value (icon e) (flags e).

Definition with_icon (value : string) (e : t) : t :=
  Build (id e) (uuid e) (name e) (description e) value (flags e).

End ActiveEffect.

(** ** [class Terrain] *)

Module Terrain.

Inductive error : Type :=
| TypeError
| Failure (reason : string).

(** How a call ends: with a value, or with an exception. *)
Inductive completion (A : Type) : Type :=
| Normal (a : A)
| Throw (e : error).

Arguments Throw {A} e.

(** How a promise settles, and the state it leaves behind. *)
Inductive settled (A S : Type) : Type :=
| Fulfilled (a : A) (s : S)
| Rejected (e : error) (s : S).

Arguments Fulfilled {A S} a s.
Arguments Rejected {A S} e s.

(** A member of a configuration object: a primitive value, an
    [ActiveEffect], or a plain object with the data of an effect. *)
Inductive member : Type :=
| Primitive (v : Js.value)
| Effect (e : ActiveEffect.t)
| Plain (data : ActiveEffect.t).

Definition object : Type := list (string * member).

Fixpoint get_member (key : string) (o : object) : member :=
  match o with
  | [] => Primitive Js.VUndefined
  | (k, v) :: rest => if String.eqb k key then v else get_member key rest
  end.

Fixpoint put_member (key : string) (v : member) (o : object) : object :=
  match o with
  | [] => [(key, v)]
  | (k, v') :: rest =>
      if String.eqb k key then (k, v) :: rest
      else (k, v') :: put_member key v rest
  end.

(** The condition of [x ? a : b]. *)
Definition truthy (x : member) : bool :=
  match x with
  | Primitive Js.VUndefined | Primitive Js.VNull => false
  | Primitive (Js.VBoolean b) => b
  | Primitive (Js.VNumber n) =>
      negb (Js.strict_eq n (Js.of_Z 0)) && Js.strict_eq n n
  | Primitive (Js.VString str) => negb (String.eqb str EmptyString)
  | Effect _ | Plain _ => true
  end.

(** Modelled from the spec: [EffectHelper.js] is not among the sources;
    the helper wraps the backing record it was built with, and [effect]
    gives it back. *)
Record EffectHelper : Type := new_EffectHelper {
  effect : ActiveEffect.t
}.

(** An instance.  The class declares no member [config] and its
    constructor defines none: [config] is [None] unless the property was
    put on the instance from outside. *)
Record t : Type := Build {
  _effectHelper : EffectHelper;
  config : option object
}.

(** [constructor(activeEffect)] *)
Definition create (activeEffect : ActiveEffect.t) : t :=
  Build (new_EffectHelper activeEffect) None.

(** [get activeEffect()] *)
Definition activeEffect (this : t) : ActiveEffect.t :=
  effect (_effectHelper this).

(** The instance once its active effect has been written to. *)
Definition written (e : ActiveEffect.t) (this : t) : t :=
  Build (new_EffectHelper e) (config this).

Definition name (this : t) : string := ActiveEffect.name (activeEffect this).
Definition set_name (value : string) (this : t) : t :=
  written (ActiveEffect.with_name value (activeEffect this)) this.

Definition description (this : t) : string :=
  ActiveEffect.description (activeEffect this).
Definition set_description (value : string) (this : t) : t :=
  written (ActiveEffect.with_description value (activeEffect this)) this.

Definition icon (this : t) : string := ActiveEffect.icon (activeEffect this).
Definition set_icon (value : string) (this : t) : t :=
  written (ActiveEffect.with_icon value (activeEffect this)) this.

Definition id (this : t) : string := ActiveEffect.id (activeEffect this).
Definition uuid (this : t) : string := ActiveEffect.uuid (activeEffect this).

Section WithConstants.

(** [MODULE_ID] and [FLAGS] come from [const.js], which is not among the
    sources: the strings are parameters.  [FLAGS.ANCHOR] is an object, and
    [FLAGS.ANCHOR.VALUE] is the string [ANCHOR_VALUE]. *)
Variable MODULE_ID : string.
Variables ANCHOR_VALUE OFFSET RANGE_BELOW RANGE_ABOVE USER_VISIBLE COLOR : string.

Definition FLAGS_ANCHOR : ActiveEffect.flag := ActiveEffect.Flag_ANCHOR_object.
Definition FLAGS_ANCHOR_VALUE : ActiveEffect.flag := ActiveEffect.Flag ANCHOR_VALUE.
Definition FLAGS_OFFSET : ActiveEffect.flag := ActiveEffect.Flag OFFSET.
Definition FLAGS_RANGE_BELOW : ActiveEffect.flag := ActiveEffect.Flag RANGE_BELOW.
Definition FLAGS_RANGE_ABOVE : ActiveEffect.flag := ActiveEffect.Flag RANGE_ABOVE.
Definition FLAGS_USER_VISIBLE : ActiveEffect.flag := ActiveEffect.Flag USER_VISIBLE.
Definition FLAGS_COLOR : ActiveEffect.flag := ActiveEffect.Flag COLOR.

(** [#getAEFlag(flag)] *)
Definition getAEFlag (flag : ActiveEffect.flag) (this : t) : ActiveEffect.data :=
  ActiveEffect.getFlag MODULE_ID flag (activeEffect this).

(** [async #setAEFlag(flag, value)]: the promise is fulfilled with the
    document that [setFlag] has written. *)
Definition setAEFlag (flag : ActiveEffect.flag) (value : ActiveEffect.data) (this : t)
  : settled ActiveEffect.t t :=
  let e := ActiveEffect.setFlag MODULE_ID flag value (activeEffect this) in
  Fulfilled e (written e this).

(** What a setter that drops the promise leaves behind. *)
Definition dropped {A : Type} (p : settled A t) : t :=
  match p with
  | Fulfilled _ this => this
  | Rejected _ this => this
  end.

Definition anchor (this : t) : ActiveEffect.data := getAEFlag FLAGS_ANCHOR_VALUE this.
Definition set_anchor (value : ActiveEffect.data) (this : t) : t :=
  dropped (setAEFlag FLAGS_ANCHOR_VALUE value this).
Definition setAnchor (value : ActiveEffect.data) (this : t) : settled ActiveEffect.t t :=
  setAEFlag FLAGS_ANCHOR value this.

Definition offset (this : t) : ActiveEffect.data := getAEFlag FLAGS_OFFSET this.
Definition set_offset (value : ActiveEffect.data) (this : t) : t :=
  dropped (setAEFlag FLAGS_OFFSET value this).
Definition setOffset (value : ActiveEffect.data) (this : t) : settled ActiveEffect.t t :=
  setAEFlag FLAGS_OFFSET value this.

Definition rangeBelow (this : t) : ActiveEffect.data := getAEFlag FLAGS_RANGE_BELOW this.
Definition set_rangeBelow (value : ActiveEffect.data) (this : t) : t :=
  dropped (setAEFlag FLAGS_RANGE_BELOW value this).
Definition setRangeBelow (value : ActiveEffect.data) (this : t) : settled ActiveEffect.t t :=
  setAEFlag FLAGS_RANGE_BELOW value this.

Definition rangeAbove (this : t) : ActiveEffect.data := getAEFlag FLAGS_RANGE_ABOVE this.
Definition set_rangeAbove (value : ActiveEffect.data) (this : t) : t :=
  dropped (setAEFlag FLAGS_RANGE_ABOVE value this).
Definition setRangeAbove (value : ActiveEffect.data) (this : t) : settled ActiveEffect.t t :=
  setAEFlag FLAGS_RANGE_ABOVE value this.

Definition userVisible (this : t) : ActiveEffect.data := getAEFlag FLAGS_USER_VISIBLE this.
Definition set_userVisible (value : ActiveEffect.data) (this : t) : t :=
  dropped (setAEFlag FLAGS_USER_VISIBLE value this).
Definition setUserVisible (value : ActiveEffect.data) (this : t) : settled ActiveEffect.t t :=
  setAEFlag FLAGS_USER_VISIBLE value this.

Definition color (this : t) : ActiveEffect.data := getAEFlag FLAGS_COLOR this.
Definition set_color (value : ActiveEffect.data) (this : t) : t :=
  dropped (setAEFlag FLAGS_COLOR value this).
Definition setColor (value : ActiveEffect.data) (this : t) : settled ActiveEffect.t t :=
  setAEFlag FLAGS_COLOR value this.

(** The attributes that have a setter and an [async] method to set them. *)
Inductive attribute : Type :=
| Anchor | Offset | RangeBelow | RangeAbove | UserVisible | Color.

Definition getter (a : attribute) : t -> ActiveEffect.data :=
  match a with
  | Anchor => anchor
  | Offset => offset
  | RangeBelow => rangeBelow
  | RangeAbove => rangeAbove
  | UserVisible => userVisible
  | Color => color
  end.

Definition setter (a : attribute) : ActiveEffect.data -> t -> t :=
  match a with
  | Anchor => set_anchor
  | Offset => set_offset
  | RangeBelow => set_rangeBelow
  | RangeAbove => set_rangeAbove
  | UserVisible => set_userVisible
  | Color => set_color
  end.

Definition async_setter (a : attribute)
  : ActiveEffect.data -> t -> settled ActiveEffect.t t :=
  match a with
  | Anchor => setAnchor
  | Offset => setOffset
  | RangeBelow => setRangeBelow
  | RangeAbove => setRangeAbove
  | UserVisible => setUserVisible
  | Color => setColor
  end.

(** The string of [FLAGS] under which the getter of an attribute reads. *)
Definition flag_of (a : attribute) : string :=
  match a with
  | Anchor => ANCHOR_VALUE
  | Offset => OFFSET
  | RangeBelow => RANGE_BELOW
  | RangeAbove => RANGE_ABOVE
  | UserVisible => USER_VISIBLE
  | Color => COLOR
  end.

(** The result of [elevationMinMax]. *)
Record MinMax : Type := Build_MinMax {
  min : ActiveEffect.data;
  max : ActiveEffect.data
}.

Variable Number_toString : float -> string.

(** [elevationMinMax(anchorE)] *)
Definition elevationMinMax (anchorE : ActiveEffect.data) (this : t) : MinMax :=
  let offset := offset this in
  let rangeBelow := rangeBelow this in
  let rangeAbove := rangeAbove this in
  let e := ActiveEffect.plus Number_toString anchorE offset in
  Build_MinMax (ActiveEffect.plus Number_toString e rangeBelow)
               (ActiveEffect.plus Number_toString e rangeAbove).

(** What the host makes of [effect.updateSource(value)] and of
    [new ActiveEffect(value)]. *)
Variable ActiveEffect_updateSource : ActiveEffect.t -> member -> member.
Variable new_ActiveEffect : member -> member.

(** [toJSON()]: [out] is the object [this.config] itself, so that the
    assignment to [out.activeEffect] is seen through the instance. *)
Definition toJSON (this : t) : completion (object * t) :=
  match config this with
  | None => Throw TypeError
  | Some out =>
      let current := get_member "activeEffect" out in
      if truthy current then
        match current with
        | Effect e =>
            let out := put_member "activeEffect" (Plain e) out in
            Normal (out, Build (_effectHelper this) (Some out))
        | _ => Throw TypeError
        end
      else
        let out := put_member "activeEffect" (Primitive Js.VUndefined) out in
        Normal (out, Build (_effectHelper this) (Some out))
  end.

(** The loop of [updateSource] over [Object.entries(json)]; [config] is
    [this.config]. *)
Fixpoint updateSource_entries (entries : list (string * member))
    (config : option object) : completion (option object) :=
  match entries with
  | [] => Normal config
  | (key, value) :: rest =>
      if String.eqb key "id" then updateSource_entries rest config
      else
        match config with
        | None => Throw TypeError
        | Some c =>
            if String.eqb key "activeEffect" then
              let current := get_member "activeEffect" c in
              if truthy current then
                match current with
                | Effect e =>
                    updateSource_entries rest
                      (Some (put_member "activeEffect"
                               (ActiveEffect_updateSource e value) c))
                | _ => Throw TypeError
                end
              else
                updateSource_entries rest
                  (Some (put_member "activeEffect" (new_ActiveEffect value) c))
            else updateSource_entries rest (Some (put_member key value c))
        end
  end.

(** [updateSource(json)] *)
Definition updateSource (json : object) (this : t) : completion t :=
  match updateSource_entries json (config this) with
  | Normal c => Normal (Build (_effectHelper this) c)
  | Throw e => Throw e
  end.

End WithConstants.

(** *** Replacing the terrains item *)

Section Replace.

(** The item that holds the terrain effects and the text of an exported
    file belong to the host, and so does [item.importFromJSON(json)]: it
    settles, and leaves the item in some state. *)
Variables Item Json : Type.
Variable Item_importFromJSON : Json -> Item -> settled unit Item.

(** The world: [TerrainSettings.terrainEffectsItem] is [undefined] when
    the item is not there. *)
Record World : Type := Build_World {
  terrainEffectsItem : option Item
}.

(** [static async replaceFromJSON(json)] *)
Definition replaceFromJSON (json : Json) (w : World) : settled unit World :=
  match terrainEffectsItem w with
  | None => Rejected TypeError w
  | Some item =>
      match Item_importFromJSON json item with
      | Fulfilled _ item' => Fulfilled tt (Build_World (Some item'))
      | Rejected e item' => Rejected e (Build_World (Some item'))
      end
  end.

End Replace.

End Terrain.

(** ** [Set] on strings, in insertion order *)

Module JsSet.

Definition t : Type := list string.

(** [set.has(x)] *)
Definition has (x : string) (s : t) : bool := existsb (String.eqb x) s.

(** [set.add(x)]: a new element goes to the end. *)
Definition add (x : string) (s : t) : t := if has x s then s else s ++ [x].

(** [new Set(array)] *)
Definition of_array (l : list string) : t :=
  fold_left (fun s x => add x s) l [].

(** [set.delete(x)] *)
Fixpoint delete (x : string) (s : t) : t :=
  match s with
  | [] => []
  | y :: rest => if String.eqb y x then rest else y :: delete x rest
  end.

(** [[...set]] *)
Definition to_array (s : t) : list string := s.

End JsSet.

(** ** [class Settings], the settings of the module *)

Module Settings.

(** Modelled from the spec: [ModuleSettingsAbstract.js], which gives
    [get] and [set], is not among the sources; they are the key/value
    storage of the host, where [get] reads what [set] stored last and,
    before that, the default that [registerAll] registers: no value for
    [KEYS.TERRAINS_ITEM], the empty array for [KEYS.FAVORITES] and for
    [KEYS.CONTROL_APP.EXPANDED_FOLDERS], both of type [Array]. *)
Record t : Type := Build {
  terrains_item : option string;
  favorites : list string;
  expanded_folders : list string
}.

(** The settings once [registerAll()] has run and nothing is stored. *)
Definition registered : t := Build None [] [].

(** [this.set(key, value)], for the three keys. *)
Definition set_terrains_item (value : string) (s : t) : t :=
  Build (Some value) (favorites s) (expanded_folders s).

Definition set_favorites (value : list string) (s : t) : t :=
  Build (terrains_item s) value (expanded_folders s).

Definition set_expanded_folders (value : list string) (s : t) : t :=
  Build (terrains_item s) (favorites s) value.

(** [static get expandedFolders()] *)
Definition expandedFolders (s : t) : list string := expanded_folders s.

(** [addExpandedFolder(folderId)]: [push] on the array that [get] gave,
    then the array of the [Set] of this array, which is what [set]
    stores. *)
Definition addExpandedFolder (folderId : string) (s : t) : t :=
  let folderArr := expandedFolders s ++ [folderId] in
  let folderArr := JsSet.to_array (JsSet.of_array folderArr) in
  set_expanded_folders folderArr s.

(** [removeExpandedFolder(id)] *)
Definition removeExpandedFolder (id : string) (s : t) : t :=
  let expandedFolderArray :=
    filter (fun expandedFolder => negb (String.eqb expandedFolder id))
           (expandedFolders s) in
  set_expanded_folders expandedFolderArray s.

(** [clearExpandedFolders()] *)
Definition clearExpandedFolders (s : t) : t := set_expanded_folders [] s.

(** [isFolderExpanded(id)]: [this.expandedFolders.includes(id)] *)
Definition isFolderExpanded (id : string) (s : t) : bool :=
  existsb (fun folder => String.eqb folder id) (expandedFolders s).

(** [isFavorite(id)] *)
Definition isFavorite (id : string) (s : t) : bool :=
  let favorites := JsSet.of_array (favorites s) in
  JsSet.has id favorites.

(** [addToFavorites(id)] *)
Definition addToFavorites (id : string) (s : t) : t :=
  let favorites := JsSet.of_array (favorites s) in
  let favorites := JsSet.add id favorites in
  set_favorites (JsSet.to_array favorites) s.

(** [removeFromFavorites(id)] *)
Definition removeFromFavorites (id : string) (s : t) : t :=
  let favorites := JsSet.of_array (favorites s) in
  let favorites := JsSet.delete id favorites in
  set_favorites (JsSet.to_array favorites) s.

(** An item of the world, as far as [Settings] makes and finds it. *)
Record Item : Type := Build_Item {
  item_id : string;
  item_name : string;
  img : string;
  type : string
}.

(** The game: the settings and [game.items]. *)
Record Game : Type := Build_Game {
  settings : t;
  items : list Item
}.

(** [game.items.get(id)]: nothing for [undefined], and nothing for an id
    that no item has. *)
Definition items_get (id : option string) (g : Game) : option Item :=
  match id with
  | None => None
  | Some i => find (fun item => String.eqb (item_id item) i) (items g)
  end.

(** [static get terrainEffectsItem()] *)
Definition terrainEffectsItem (g : Game) : option Item :=
  items_get (terrains_item (settings g)) g.

Section Create.

(** The id that the host gives to the document it creates. *)
Variable new_id : list Item -> string.

(** [CONFIG.Item.documentClass.create(data)]: the item is added to
    [game.items]. *)
Definition Item_create (name img type : string) (g : Game) : Item * Game :=
  let item := Build_Item (new_id (items g)) name img type in
  (item, Build_Game (settings g) (items g ++ [item])).

(** [static async initializeTerrainsItem()] *)
Definition initializeTerrainsItem (g : Game) : Game :=
  match terrainEffectsItem g with
  | Some _ => g
  | None =>
      let created :=
        Item_create "Terrains" "icons/svg/mountain.svg" "base" g in
      let item := fst created in
      let g := snd created in
      Build_Game (set_terrains_item (item_id item) (settings g)) (items g)
  end.

End Create.

End Settings.

(** ** Sample data *)

Module Sample.

Local Open Scope string_scope.

(** The map after [add("grass"); add("swamp")]. *)
Definition two_terrains : TerrainMap.t string :=
  TerrainMap.after (TerrainMap.add "swamp"
    (TerrainMap.after (TerrainMap.add "grass" (TerrainMap.create string)))).

(** A terrain with the offset 5 and the ranges -10 and 20. *)
Definition marsh : Terrain.t :=
  Terrain.create
    (ActiveEffect.Build "a1" "Item.i1.ActiveEffect.a1" "Marsh" "Wet ground" "marsh.svg"
       [("terrainmapper", ActiveEffect.Flag "offset",
         ActiveEffect.Number 5%float);
        ("terrainmapper", ActiveEffect.Flag "rangeBelow",
         ActiveEffect.Number (-10)%float);
        ("terrainmapper", ActiveEffect.Flag "rangeAbove",
         ActiveEffect.Number 20%float)]).

(** A stand-in for Number::toString, which a sum of numbers does not
    call. *)
Definition decimal (d : float) : string := EmptyString.

(** The map after a third [add]. *)
Definition three_terrains : TerrainMap.t string :=
  TerrainMap.after (TerrainMap.add "lava" two_terrains).

(** The map in the middle of the second [add]: the entry is stored, and
    the counter is not yet computed again. *)
Definition before_recount : TerrainMap.t string :=
  TerrainMap.Build (TerrainMap.entries two_terrains) (Js.of_Z 2).

(** The map after [set(5, "ice"); delete(2); add("sand")]: the keys are
    1, 5 and 4, and the counter is 5. *)
Definition counter_on_key : TerrainMap.t string :=
  TerrainMap.after (TerrainMap.add "sand"
    (TerrainMap.after (TerrainMap.delete (Js.of_Z 2)
      (TerrainMap.after
         (TerrainMap.set (Js.VNumber (Js.of_Z 5)) "ice" false two_terrains))))).

(** A terrain whose active effect has no flag. *)
Definition bare : Terrain.t :=
  Terrain.create
    (ActiveEffect.Build "a2" "Item.i1.ActiveEffect.a2" "Bare" "No flag"
       "bare.svg" []).

End Sample.

(** ** Facts about numbers *)

Module JsFacts.

Lemma add_of_Z (a b : Z) : Js.add (Js.of_Z a) (Js.of_Z b) = Js.of_Z (a + b).
Proof.
  unfold Js.add, Js.of_Z, inject_Z, Qplus; simpl.
  now rewrite !Z.mul_1_r.
Qed.

Lemma sub_of_Z (a b : Z) : Js.sub (Js.of_Z a) (Js.of_Z b) = Js.of_Z (a - b).
Proof.
  unfold Js.sub, Js.of_Z, inject_Z, Qminus, Qplus, Qopp; simpl.
  now rewrite !Z.mul_1_r.
Qed.

Lemma strict_eq_of_Z (a b : Z) :
  Js.strict_eq (Js.of_Z a) (Js.of_Z b) = (a =? b)%Z.
Proof.
  unfold Js.strict_eq, Js.of_Z, inject_Z, Qeq_bool; simpl.
  now rewrite !Z.mul_1_r.
Qed.

Lemma same_value_zero_of_Z (a b : Z) :
  Js.same_value_zero (Js.of_Z a) (Js.of_Z b) = (a =? b)%Z.
Proof. exact (strict_eq_of_Z a b). Qed.

Lemma lt_of_Z (a b : Z) : Js.lt (Js.of_Z a) (Js.of_Z b) = (a <? b)%Z.
Proof.
  unfold Js.lt, Js.of_Z, inject_Z, Qle_bool; simpl.
  rewrite !Z.mul_1_r. now rewrite Z.ltb_antisym.
Qed.

Lemma gt_of_Z (a b : Z) : Js.gt (Js.of_Z a) (Js.of_Z b) = (b <? a)%Z.
Proof. apply lt_of_Z. Qed.

Lemma isInteger_of_Z (a : Z) : Js.isInteger (Js.of_Z a) = true.
Proof.
  unfold Js.isInteger, Js.of_Z, inject_Z; simpl.
  now rewrite Z.rem_1_r.
Qed.

Lemma same_value_zero_refl (n : Js.number) : Js.same_value_zero n n = true.
Proof. destruct n as [q|]; simpl; [apply Qeq_bool_refl | reflexivity]. Qed.

(** [Number.isInteger] holds of the integers, and of nothing else. *)
Lemma isInteger_spec (n : Js.number) :
  Js.isInteger n = true <-> exists z : Z, Js.is_integer n z.
Proof.
  destruct n as [[a b]|]; simpl.
  - unfold Qeq; simpl. rewrite Z.eqb_eq, Z.rem_divide by discriminate.
    split; intros [z Hz]; exists z; lia.
  - split; [discriminate | intros [_ []]].
Qed.

(** The test [!Number.isInteger(id) || id < 1] lets through the positive
    integers, and nothing else. *)
Lemma accepted_iff_positive_integer (n : Js.number) :
  negb (Js.isInteger n) || Js.lt n (Js.of_Z 1) = false <->
  Js.positive_integer (Js.VNumber n).
Proof.
  rewrite orb_false_iff, negb_false_iff, isInteger_spec.
  destruct n as [[a b]|]; simpl.
  - unfold Qle_bool, Qeq; simpl. rewrite negb_false_iff, Z.leb_le.
    split.
    + intros [[z Hz] Hle]. exists z. split; [nia | exact Hz].
    + intros [z [Hz Ha]]. split; [now exists z | nia].
  - split; [intros [[_ []] _] | intros [_ [_ []]]].
Qed.

Lemma gt_lt_of_Z (n : Js.number) (a b : Z) :
  (a <= b)%Z -> Js.gt n (Js.of_Z b) = true -> Js.lt n (Js.of_Z a) = false.
Proof.
  destruct n as [[p q]|]; simpl; [|discriminate].
  unfold Qle_bool; simpl.
  rewrite negb_true_iff, negb_false_iff, Z.leb_gt, Z.leb_le.
  nia.
Qed.

Lemma same_value_zero_sym (a b : Js.number) :
  Js.same_value_zero a b = Js.same_value_zero b a.
Proof.
  destruct a as [x|], b as [y|]; simpl; try reflexivity.
  unfold Qeq_bool. apply Z.eqb_sym.
Qed.

Lemma same_value_zero_trans (a b c : Js.number) :
  Js.same_value_zero a b = true -> Js.same_value_zero b c = true ->
  Js.same_value_zero a c = true.
Proof.
  destruct a as [x|], b as [y|], c as [z|]; simpl; try discriminate; auto.
  rewrite !Qeq_bool_iff. apply Qeq_trans.
Qed.

(** Two keys that are the same for the map are found in the same arrays. *)
Lemma existsb_same_value_zero (a b : Js.number) (l : list Js.number) :
  Js.same_value_zero a b = true ->
  existsb (fun k' => Js.same_value_zero k' a) l =
  existsb (fun k' => Js.same_value_zero k' b) l.
Proof.
  intros Hab. induction l as [|x l IH]; simpl; [reflexivity|].
  rewrite IH. f_equal.
  destruct (Js.same_value_zero x a) eqn:Hxa, (Js.same_value_zero x b) eqn:Hxb;
    try reflexivity.
  - now rewrite (same_value_zero_trans _ _ _ Hxa Hab) in Hxb.
  - rewrite same_value_zero_sym in Hab.
    now rewrite (same_value_zero_trans _ _ _ Hxb Hab) in Hxa.
Qed.

Lemma positive_integer_1 : Js.positive_integer (Js.VNumber (Js.of_Z 1)).
Proof. exists 1%Z. split; [lia | reflexivity]. Qed.

Lemma positive_integer_succ (n : Js.number) :
  Js.positive_integer (Js.VNumber n) ->
  Js.positive_integer (Js.VNumber (Js.add n (Js.of_Z 1))).
Proof.
  destruct n as [q|]; simpl; [|intros [_ [_ []]]].
  intros [z [Hz Hq]]. exists (z + 1)%Z. split; [lia|].
  rewrite Hq, inject_Z_plus. reflexivity.
Qed.

Lemma integer_or_NaN_succ (n : Js.number) :
  Js.integer_or_NaN n -> Js.integer_or_NaN (Js.add n (Js.of_Z 1)).
Proof.
  intros [-> | H]; [left; reflexivity | right; now apply positive_integer_succ].
Qed.

End JsFacts.

(** ** Facts about the native map and about arrays of keys *)

Module NativeMapFacts.
Section Entries.

Variable V : Type.
Implicit Types (m : NativeMap.t V) (k : Js.number) (v : V).

Lemma has_keys k m :
  NativeMap.has k m =
  existsb (fun k' => Js.same_value_zero k' k) (NativeMap.keys m).
Proof.
  induction m as [|e m IH]; simpl; [reflexivity|].
  now rewrite <- IH.
Qed.

Lemma size_keys m : NativeMap.size m = List.length (NativeMap.keys m).
Proof. unfold NativeMap.size, NativeMap.keys. now rewrite length_map. Qed.

Lemma keys_set_new k v m :
  NativeMap.has k m = false ->
  NativeMap.keys (NativeMap.set k v m) = NativeMap.keys m ++ [k].
Proof.
  induction m as [|e m IH]; simpl; intros H; [reflexivity|].
  apply orb_false_elim in H as [He Hm].
  rewrite He; simpl. now rewrite IH.
Qed.

Lemma get_set_same k v m :
  Js.same_value_zero k k = true ->
  NativeMap.get k (NativeMap.set k v m) = Some v.
Proof.
  intros Hk. induction m as [|e m IH]; simpl.
  - unfold NativeMap.key_is; simpl. now rewrite Hk.
  - destruct (NativeMap.key_is k e) eqn:He; simpl.
    + unfold NativeMap.key_is in *; simpl. now rewrite He.
    + now rewrite He.
Qed.

(** [delete] takes the first entry under the key out of the keys. *)
Lemma keys_delete k (before after : list Js.number) m :
  NativeMap.keys m = before ++ k :: after ->
  existsb (fun k' => Js.same_value_zero k' k) before = false ->
  fst (NativeMap.delete k m) = true /\
  NativeMap.keys (snd (NativeMap.delete k m)) = before ++ after.
Proof.
  revert m; induction before as [|b before IH]; intros m Hkeys Hno.
  - destruct m as [|e m]; [discriminate|]. simpl in Hkeys.
    injection Hkeys as He Hm. simpl. unfold NativeMap.key_is.
    rewrite He, JsFacts.same_value_zero_refl. simpl.
    split; [reflexivity | exact Hm].
  - destruct m as [|e m]; [discriminate|]. simpl in Hkeys.
    injection Hkeys as He Hm. simpl in Hno.
    apply orb_false_elim in Hno as [Hb Hno].
    simpl. unfold NativeMap.key_is. rewrite He, Hb. simpl.
    destruct (IH m Hm Hno) as [Hfst Hsnd]. split; [exact Hfst|].
    now rewrite He, Hsnd.
Qed.

Lemma keys_set k v m :
  NativeMap.keys (NativeMap.set k v m) =
  if NativeMap.has k m then NativeMap.keys m else NativeMap.keys m ++ [k].
Proof.
  induction m as [|x m IH]; simpl; [reflexivity|].
  destruct (NativeMap.key_is k x); simpl; [reflexivity|].
  rewrite IH. now destruct (NativeMap.has k m).
Qed.

Lemma size_set k v m :
  NativeMap.size (NativeMap.set k v m) =
  if NativeMap.has k m then NativeMap.size m else S (NativeMap.size m).
Proof.
  rewrite !size_keys, keys_set.
  destruct (NativeMap.has k m); [reflexivity|].
  rewrite length_app. simpl. lia.
Qed.

Lemma get_set_other k k' v m :
  Js.same_value_zero k k' = false ->
  NativeMap.get k' (NativeMap.set k v m) = NativeMap.get k' m.
Proof.
  intros Hne. induction m as [|x m IH]; simpl.
  - unfold NativeMap.key_is; simpl. now rewrite Hne.
  - destruct (NativeMap.key_is k x) eqn:Hx; simpl.
    + unfold NativeMap.key_is in *; simpl.
      destruct (Js.same_value_zero (fst x) k') eqn:Hx'; [|reflexivity].
      rewrite JsFacts.same_value_zero_sym in Hx.
      now rewrite (JsFacts.same_value_zero_trans _ _ _ Hx Hx') in Hne.
    + now rewrite IH.
Qed.

Lemma fst_delete k m : fst (NativeMap.delete k m) = NativeMap.has k m.
Proof.
  induction m as [|x m IH]; simpl; [reflexivity|].
  destruct (NativeMap.key_is k x); simpl; [reflexivity | exact IH].
Qed.

Lemma delete_absent k m :
  NativeMap.has k m = false -> snd (NativeMap.delete k m) = m.
Proof.
  induction m as [|x m IH]; simpl; [reflexivity|].
  destruct (NativeMap.key_is k x); simpl; [discriminate|].
  intros H. now rewrite IH.
Qed.

Lemma keys_delete_incl k m :
  incl (NativeMap.keys (snd (NativeMap.delete k m))) (NativeMap.keys m).
Proof.
  induction m as [|x m IH]; simpl; [apply incl_refl|].
  destruct (NativeMap.key_is k x); simpl.
  - apply incl_tl, incl_refl.
  - apply incl_cons; [now left | now apply incl_tl].
Qed.

Lemma size_delete k m :
  NativeMap.size (snd (NativeMap.delete k m)) =
  if NativeMap.has k m then pred (NativeMap.size m) else NativeMap.size m.
Proof.
  induction m as [|x m IH]; simpl; [reflexivity|].
  destruct (NativeMap.key_is k x); simpl; [reflexivity|].
  unfold NativeMap.size in *. rewrite IH.
  destruct (NativeMap.has k m) eqn:Hh; [|reflexivity].
  destruct m; [discriminate | reflexivity].
Qed.

Lemma get_delete_other k k' m :
  Js.same_value_zero k k' = false ->
  NativeMap.get k' (snd (NativeMap.delete k m)) = NativeMap.get k' m.
Proof.
  intros Hne. induction m as [|x m IH]; simpl; [reflexivity|].
  destruct (NativeMap.key_is k x) eqn:Hx; simpl.
  - unfold NativeMap.key_is in *.
    destruct (Js.same_value_zero (fst x) k') eqn:Hx'; [|reflexivity].
    rewrite JsFacts.same_value_zero_sym in Hx.
    now rewrite (JsFacts.same_value_zero_trans _ _ _ Hx Hx') in Hne.
  - now rewrite IH.
Qed.

(** [set] and [delete] keep the keys distinct. *)
Lemma distinct_set k v m :
  NativeMap.distinct (NativeMap.keys m) ->
  NativeMap.distinct (NativeMap.keys (NativeMap.set k v m)).
Proof.
  induction m as [|x m IH]; simpl.
  - intros _. split; [reflexivity | exact I].
  - intros [Hx Hm]. destruct (NativeMap.key_is k x) eqn:Hk; simpl.
    + split; assumption.
    + split; [|now apply IH].
      rewrite keys_set. destruct (NativeMap.has k m); [exact Hx|].
      rewrite existsb_app, Hx. simpl.
      unfold NativeMap.key_is in Hk.
      rewrite JsFacts.same_value_zero_sym, Hk. reflexivity.
Qed.

Lemma distinct_delete k m :
  NativeMap.distinct (NativeMap.keys m) ->
  NativeMap.distinct (NativeMap.keys (snd (NativeMap.delete k m))).
Proof.
  induction m as [|x m IH]; simpl; [auto|].
  intros [Hx Hm]. destruct (NativeMap.key_is k x) eqn:Hk; simpl; [exact Hm|].
  split; [|now apply IH].
  destruct (existsb _ (NativeMap.keys (snd (NativeMap.delete k m)))) eqn:Hex;
    [|reflexivity].
  apply existsb_exists in Hex as [y [Hy Hyx]].
  apply (keys_delete_incl k m) in Hy.
  assert (existsb (fun k' => Js.same_value_zero k' (fst x))
            (NativeMap.keys m) = true)
    by (apply existsb_exists; eauto).
  congruence.
Qed.

(** With distinct keys, a deleted key is not found any more. *)
Lemma has_delete_same k m :
  NativeMap.distinct (NativeMap.keys m) ->
  NativeMap.has k (snd (NativeMap.delete k m)) = false.
Proof.
  induction m as [|x m IH]; simpl; [reflexivity|].
  intros [Hx Hm]. destruct (NativeMap.key_is k x) eqn:Hk; simpl.
  - rewrite has_keys. unfold NativeMap.key_is in Hk.
    now rewrite <- (JsFacts.existsb_same_value_zero _ _ _ Hk).
  - rewrite Hk. now apply IH.
Qed.

(** [delete] on integer keys, read on the integers. *)
Lemma keys_delete_of_Z (id : Z) m : forall zs : list Z,
  NativeMap.keys m = map Js.of_Z zs -> NoDup zs -> In id zs ->
  exists zs' : list Z,
    NativeMap.keys (snd (NativeMap.delete (Js.of_Z id) m)) = map Js.of_Z zs' /\
    NoDup zs' /\
    (forall y, In y zs' <-> In y zs /\ y <> id) /\
    S (List.length zs') = List.length zs.
Proof.
  induction m as [|x m IH]; intros zs Hkeys Hnd Hin.
  - destruct zs; [contradiction | discriminate].
  - destruct zs as [|z zs]; [discriminate|].
    cbn [NativeMap.keys map] in Hkeys. injection Hkeys as Hx Hm.
    apply NoDup_cons_iff in Hnd as [Hz Hnd].
    cbn [NativeMap.delete]. unfold NativeMap.key_is.
    rewrite Hx, JsFacts.same_value_zero_of_Z.
    destruct (Z.eqb_spec z id) as [->|Hne].
    + exists zs. cbn [snd]. split; [exact Hm|]. split; [exact Hnd|]. split.
      * intros y. split.
        -- intros Hy. split; [now right | congruence].
        -- intros [[Heq|Hy] Hyid]; [congruence | exact Hy].
      * reflexivity.
    + destruct Hin as [Heq|Hin]; [contradiction|].
      destruct (IH zs Hm Hnd Hin) as [zs' [Hk [Hnd' [Hiff Hlen]]]].
      exists (z :: zs'). cbn [snd NativeMap.keys map fst].
      split; [|split; [|split]].
      * fold (NativeMap.keys (snd (NativeMap.delete (Js.of_Z id) m))).
        now rewrite Hk, Hx.
      * constructor; [|exact Hnd']. rewrite Hiff. tauto.
      * intros y. simpl. rewrite Hiff. split.
        -- intros [<-|[Hy Hyid]]; [split; [now left | congruence] | tauto].
        -- intros [[Heq|Hy] Hyid]; [now left | right; tauto].
      * simpl. now rewrite Hlen.
Qed.

End Entries.
End NativeMapFacts.

Module JsArrayFacts.

Import JsFacts.

Lemma length_consecutive (a : Z) (n : nat) :
  List.length (JsArray.consecutive a n) = n.
Proof. revert a; induction n as [|n IH]; intros a; simpl; auto. Qed.

Lemma consecutive_snoc (a : Z) (n : nat) :
  JsArray.consecutive a n ++ [Js.of_Z (a + Z.of_nat n)] =
  JsArray.consecutive a (S n).
Proof.
  revert a; induction n as [|n IH]; intros a.
  - simpl. now rewrite Z.add_0_r.
  - change (JsArray.consecutive a (S n)) with
      (Js.of_Z a :: JsArray.consecutive (a + 1) n).
    rewrite <- app_comm_cons.
    replace (a + Z.of_nat (S n))%Z with (a + 1 + Z.of_nat n)%Z by lia.
    now rewrite IH.
Qed.

Lemma outside_consecutive (a b : Z) (n : nat) :
  (b < a \/ a + Z.of_nat n <= b)%Z ->
  existsb (fun k => Js.same_value_zero k (Js.of_Z b))
          (JsArray.consecutive a n) = false.
Proof.
  revert a; induction n as [|n IH]; intros a H;
    cbn [JsArray.consecutive existsb]; [reflexivity|].
  rewrite same_value_zero_of_Z, IH by lia.
  destruct (Z.eqb_spec a b); [lia | reflexivity].
Qed.

Lemma inside_consecutive (a b : Z) (n : nat) :
  (a <= b < a + Z.of_nat n)%Z ->
  existsb (fun k => Js.same_value_zero k (Js.of_Z b))
          (JsArray.consecutive a n) = true.
Proof.
  revert a; induction n as [|n IH]; intros a H;
    cbn [JsArray.consecutive existsb]; [simpl in H; lia|].
  rewrite same_value_zero_of_Z.
  destruct (Z.eqb_spec a b); [reflexivity|].
  simpl. apply IH. lia.
Qed.

Lemma comes_after_of_Z (a b : Z) :
  JsArray.comes_after (Js.of_Z a) (Js.of_Z b) = (b <? a)%Z.
Proof.
  unfold JsArray.comes_after. rewrite sub_of_Z, gt_of_Z.
  destruct (Z.ltb_spec 0 (a - b)), (Z.ltb_spec b a); auto; lia.
Qed.

(** An ascending run is left as it is by the sort. *)
Lemma sort_consecutive (a : Z) (n : nat) :
  JsArray.sort (JsArray.consecutive a n) = JsArray.consecutive a n.
Proof.
  revert a; induction n as [|n IH]; intros a; [reflexivity|].
  simpl. fold (JsArray.sort (JsArray.consecutive (a + 1) n)).
  rewrite IH. destruct n as [|n]; [reflexivity|].
  simpl. rewrite comes_after_of_Z.
  destruct (Z.ltb_spec (a + 1) a); [lia | reflexivity].
Qed.

(** In an unbroken run the search stops at the last key. *)
Lemma find_lastConsecutive_consecutive (a : Z) (n : nat) :
  JsArray.find_lastConsecutive (JsArray.consecutive a (S n)) =
  Some (Js.of_Z (a + Z.of_nat n)).
Proof.
  revert a; induction n as [|n IH]; intros a.
  - simpl. now rewrite Z.add_0_r.
  - change (JsArray.consecutive a (S (S n))) with
      (Js.of_Z a :: JsArray.consecutive (a + 1) (S n)).
    cbn [JsArray.find_lastConsecutive].
    change (JsArray.consecutive (a + 1) (S n)) with
      (Js.of_Z (a + 1) :: JsArray.consecutive (a + 1 + 1) n) at 1.
    rewrite add_of_Z, strict_eq_of_Z, Z.eqb_refl. simpl negb. cbv iota.
    rewrite IH. do 2 f_equal. lia.
Qed.

Lemma consecutive_app (a : Z) (n p : nat) :
  JsArray.consecutive a (n + p) =
  JsArray.consecutive a n ++ JsArray.consecutive (a + Z.of_nat n) p.
Proof.
  revert a; induction n as [|n IH]; intros a.
  - simpl. now rewrite Z.add_0_r.
  - cbn [JsArray.consecutive Nat.add app]. rewrite IH. do 3 f_equal. lia.
Qed.

Lemma insert_before_runs (x a b : Z) (n p : nat) :
  (x < a)%Z -> (x < b)%Z ->
  JsArray.insert (Js.of_Z x)
    (JsArray.consecutive a n ++ JsArray.consecutive b p) =
  Js.of_Z x :: JsArray.consecutive a n ++ JsArray.consecutive b p.
Proof.
  intros Ha Hb. destruct n as [|n]; [destruct p as [|p]|];
    cbn [JsArray.consecutive app JsArray.insert]; [reflexivity| |];
    rewrite comes_after_of_Z;
    match goal with |- context [(?u <? ?v)%Z] => destruct (Z.ltb_spec u v) end;
    try lia; reflexivity.
Qed.

(** Two ascending runs, the second above the first, are left as they
    are by the sort. *)
Lemma sort_two_runs (a b : Z) (n p : nat) :
  (a + Z.of_nat n <= b)%Z ->
  JsArray.sort (JsArray.consecutive a n ++ JsArray.consecutive b p) =
  JsArray.consecutive a n ++ JsArray.consecutive b p.
Proof.
  revert a; induction n as [|n IH]; intros a H.
  - apply sort_consecutive.
  - cbn [JsArray.consecutive app]. unfold JsArray.sort. cbn [fold_right].
    fold (JsArray.sort
            (JsArray.consecutive (a + 1) n ++ JsArray.consecutive b p)).
    rewrite IH by lia. apply insert_before_runs; lia.
Qed.

Lemma find_lastConsecutive_step (k k' : Js.number) (rest : list Js.number) :
  JsArray.find_lastConsecutive (k :: k' :: rest) =
  if negb (Js.strict_eq k' (Js.add k (Js.of_Z 1))) then Some k
  else JsArray.find_lastConsecutive (k' :: rest).
Proof. reflexivity. Qed.

(** When a gap separates two runs, the search stops at the end of the
    first one. *)
Lemma find_lastConsecutive_two_runs (a b : Z) (n p : nat) :
  (a + Z.of_nat n + 1 < b)%Z ->
  JsArray.find_lastConsecutive
    (JsArray.consecutive a (S n) ++ JsArray.consecutive b p) =
  Some (Js.of_Z (a + Z.of_nat n)).
Proof.
  revert a; induction n as [|n IH]; intros a H.
  - destruct p as [|p];
      cbn [JsArray.consecutive app JsArray.find_lastConsecutive].
    + now rewrite Z.add_0_r.
    + rewrite add_of_Z, strict_eq_of_Z.
      destruct (Z.eqb_spec b (a + 1)); [lia|]. simpl. now rewrite Z.add_0_r.
  - change (JsArray.consecutive a (S (S n))) with
      (Js.of_Z a :: Js.of_Z (a + 1) :: JsArray.consecutive (a + 1 + 1) n).
    cbn [app]. rewrite find_lastConsecutive_step.
    rewrite add_of_Z, strict_eq_of_Z, Z.eqb_refl. cbn [negb].
    change (Js.of_Z (a + 1) ::
            JsArray.consecutive (a + 1 + 1) n ++ JsArray.consecutive b p)
      with (JsArray.consecutive (a + 1) (S n) ++ JsArray.consecutive b p).
    rewrite IH by lia. do 2 f_equal. lia.
Qed.

(** The sort keeps the elements, and their number. *)
Lemma In_insert (x y : Js.number) (l : list Js.number) :
  In x (JsArray.insert y l) <-> x = y \/ In x l.
Proof.
  induction l as [|z l IH]; simpl.
  - intuition.
  - destruct (JsArray.comes_after y z); simpl; rewrite ?IH; intuition.
Qed.

Lemma In_sort (x : Js.number) (l : list Js.number) :
  In x (JsArray.sort l) <-> In x l.
Proof.
  induction l as [|y l IH]; simpl; [reflexivity|].
  rewrite In_insert, IH. intuition.
Qed.

Lemma length_insert (y : Js.number) (l : list Js.number) :
  List.length (JsArray.insert y l) = S (List.length l).
Proof.
  induction l as [|z l IH]; simpl; [reflexivity|].
  destruct (JsArray.comes_after y z); simpl; now rewrite ?IH.
Qed.

Lemma length_sort (l : list Js.number) :
  List.length (JsArray.sort l) = List.length l.
Proof.
  induction l as [|y l IH]; simpl; [reflexivity|].
  now rewrite length_insert, IH.
Qed.

(** The search answers with an element of the array, and finds one in
    every array that is not empty. *)
Lemma find_lastConsecutive_In (l : list Js.number) (k : Js.number) :
  JsArray.find_lastConsecutive l = Some k -> In k l.
Proof.
  induction l as [|x l IH]; [discriminate|].
  destruct l as [|y l].
  - simpl. intros [= ->]. now left.
  - rewrite find_lastConsecutive_step.
    destruct (negb _); [intros [= ->]; now left | intros H; right; auto].
Qed.

Lemma find_lastConsecutive_nonempty (l : list Js.number) :
  l <> [] -> JsArray.find_lastConsecutive l <> None.
Proof.
  induction l as [|x l IH]; [congruence|]. intros _.
  destruct l as [|y l]; [discriminate|].
  rewrite find_lastConsecutive_step.
  destruct (negb _); [discriminate | apply IH; discriminate].
Qed.

(** On integers the sort is the insertion sort of the integers. *)
Lemma insert_of_Z (x : Z) (l : list Z) :
  JsArray.insert (Js.of_Z x) (map Js.of_Z l) =
  map Js.of_Z (JsArray.insert_Z x l).
Proof.
  induction l as [|y l IH]; [reflexivity|].
  cbn [map JsArray.insert JsArray.insert_Z]. rewrite comes_after_of_Z.
  destruct (y <? x)%Z; cbn [map]; [now rewrite IH | reflexivity].
Qed.

Lemma sort_of_Z (l : list Z) :
  JsArray.sort (map Js.of_Z l) = map Js.of_Z (JsArray.sort_Z l).
Proof.
  induction l as [|x l IH]; [reflexivity|].
  cbn [map]. unfold JsArray.sort, JsArray.sort_Z. cbn [fold_right].
  fold (JsArray.sort (map Js.of_Z l)). fold (JsArray.sort_Z l).
  now rewrite IH, insert_of_Z.
Qed.

Lemma In_insert_Z (x y : Z) (l : list Z) :
  In x (JsArray.insert_Z y l) <-> x = y \/ In x l.
Proof.
  induction l as [|z l IH]; simpl; [intuition|].
  destruct (z <? y)%Z; simpl; rewrite ?IH; intuition.
Qed.

Lemma In_sort_Z (x : Z) (l : list Z) : In x (JsArray.sort_Z l) <-> In x l.
Proof.
  induction l as [|y l IH]; simpl; [reflexivity|].
  rewrite In_insert_Z, IH. intuition.
Qed.

Lemma increasing_tail (x : Z) (l : list Z) :
  JsArray.increasing (x :: l) -> JsArray.increasing l.
Proof. destruct l; simpl; tauto. Qed.

Lemma increasing_head (x : Z) (l : list Z) :
  JsArray.increasing (x :: l) -> forall y, In y l -> (x < y)%Z.
Proof.
  revert x; induction l as [|z l IH]; intros x H y Hy; [contradiction|].
  destruct H as [Hxz Hl]. destruct Hy as [<- | Hy]; [exact Hxz|].
  specialize (IH z Hl y Hy). lia.
Qed.

Lemma increasing_insert_Z (x : Z) (l : list Z) :
  JsArray.increasing l -> ~ In x l ->
  JsArray.increasing (JsArray.insert_Z x l).
Proof.
  induction l as [|y l IH]; intros Hl Hx; [exact I|].
  cbn [JsArray.insert_Z]. destruct (Z.ltb_spec y x) as [Hlt|Hge].
  - assert (Hrec : JsArray.increasing (JsArray.insert_Z x l)).
    { apply IH; [now apply increasing_tail in Hl|].
      intros H; apply Hx; now right. }
    destruct (JsArray.insert_Z x l) as [|z r] eqn:Hins; [exact I|].
    split; [|exact Hrec].
    assert (Hz : In z (JsArray.insert_Z x l)) by (rewrite Hins; now left).
    apply In_insert_Z in Hz as [-> | Hz]; [exact Hlt|].
    now apply (increasing_head _ _ Hl).
  - split; [|exact Hl].
    assert (x <> y) by (intros ->; apply Hx; now left). lia.
Qed.

(** Distinct integers come out of the sort in increasing order. *)
Lemma increasing_sort_Z (l : list Z) :
  NoDup l -> JsArray.increasing (JsArray.sort_Z l).
Proof.
  induction 1 as [|x l Hx Hl IH]; [exact I|].
  cbn. apply increasing_insert_Z; [exact IH | now rewrite In_sort_Z].
Qed.

(** In an increasing array of integers the search stops at the end of
    the run that starts at the first key: the keys of the run are there,
    and the integer after the run is not. *)
Lemma find_lastConsecutive_increasing (h : Z) (t : list Z) :
  JsArray.increasing (h :: t) ->
  exists k : Z,
    JsArray.find_lastConsecutive (map Js.of_Z (h :: t)) = Some (Js.of_Z k) /\
    (h <= k)%Z /\
    (forall y, (h <= y <= k)%Z -> In y (h :: t)) /\
    ~ In (k + 1)%Z (h :: t).
Proof.
  revert h; induction t as [|h' t IH]; intros h Hinc.
  - exists h. split; [reflexivity|]. split; [lia|]. split.
    + intros y Hy. left. lia.
    + intros [H|[]]. lia.
  - destruct Hinc as [Hlt Hinc]. cbn [map].
    rewrite find_lastConsecutive_step, add_of_Z, strict_eq_of_Z.
    destruct (Z.eqb_spec h' (h + 1)) as [->|Hne]; cbn [negb].
    + destruct (IH _ Hinc) as [k [Hfind [Hle [Hrun Hfree]]]].
      exists k. split; [exact Hfind|]. split; [lia|]. split.
      * intros y Hy. destruct (Z.eq_dec y h) as [->|Hyh]; [now left|].
        right. apply Hrun. lia.
      * intros [H|H]; [lia | contradiction].
    + exists h. split; [reflexivity|]. split; [lia|]. split.
      * intros y Hy. left. lia.
      * intros [H|[H|H]]; try lia.
        pose proof (increasing_head _ _ Hinc _ H). lia.
Qed.

Lemma has_of_Z (b : Z) (l : list Z) :
  existsb (fun k => Js.same_value_zero k (Js.of_Z b)) (map Js.of_Z l) = true <->
  In b l.
Proof.
  induction l as [|x l IH]; cbn [map existsb In];
    [split; [discriminate | contradiction]|].
  rewrite orb_true_iff, IH, same_value_zero_of_Z, Z.eqb_eq. tauto.
Qed.

End JsArrayFacts.

(** ** Facts about [TerrainMap] *)

Section TerrainMapFacts.

Import JsFacts NativeMapFacts JsArrayFacts.

Variable Terrain : Type.
Implicit Types (m : TerrainMap.t Terrain) (terrain : Terrain).

Lemma has_keys_of m (id : Js.number) :
  TerrainMap.has id m =
  existsb (fun k => Js.same_value_zero k id) (TerrainMap.keys m).
Proof. apply has_keys. Qed.

Lemma size_keys_of m : TerrainMap.size m = List.length (TerrainMap.keys m).
Proof. apply size_keys. Qed.

Lemma dense_create : TerrainMap.dense 0 (TerrainMap.create Terrain).
Proof. split; reflexivity. Qed.

Lemma dense_clear m : TerrainMap.dense 0 (TerrainMap.clear m).
Proof. split; reflexivity. Qed.

(** Over an unbroken run [1..k] whose counter does not match the fast
    path, [#findNextId] answers [k + 1]. *)
Lemma findNextId_run (entries : NativeMap.t Terrain) (next : Js.number) (k : nat) :
  NativeMap.keys entries = JsArray.consecutive 1 (S k) ->
  Js.strict_eq (Js.of_nat (S k)) (Js.sub next (Js.of_Z 1)) = false ->
  TerrainMap.findNextId (TerrainMap.Build entries next) =
  Js.of_Z (1 + Z.of_nat (S k)).
Proof.
  intros Hkeys Hslow. unfold TerrainMap.findNextId.
  rewrite size_keys_of. unfold TerrainMap.keys; simpl TerrainMap.entries.
  simpl TerrainMap.nextId.
  rewrite Hkeys, length_consecutive, Hslow.
  rewrite sort_consecutive, find_lastConsecutive_consecutive.
  unfold Js.add_to_optional, Js.nullish_coalesce. rewrite add_of_Z.
  f_equal. lia.
Qed.

Lemma add_dense (k : nat) terrain m :
  TerrainMap.dense k m ->
  TerrainMap.returned (TerrainMap.add terrain m) = Js.of_Z (1 + Z.of_nat k) /\
  TerrainMap.dense (S k) (TerrainMap.after (TerrainMap.add terrain m)).
Proof.
  intros [Hkeys Hnext]. split; [exact Hnext|].
  assert (Hfree : TerrainMap.has (Js.of_Z (1 + Z.of_nat k)) m = false).
  { rewrite has_keys_of, Hkeys. apply outside_consecutive. lia. }
  assert (Hkeys' :
    NativeMap.keys (NativeMap.set (TerrainMap.nextId m) terrain
                      (TerrainMap.entries m)) = JsArray.consecutive 1 (S k)).
  { rewrite Hnext, keys_set_new by exact Hfree.
    fold (TerrainMap.keys m). rewrite Hkeys. apply consecutive_snoc. }
  unfold TerrainMap.add, TerrainMap.store; simpl TerrainMap.after.
  simpl TerrainMap.entries. simpl TerrainMap.nextId.
  split; [exact Hkeys'|].
  simpl TerrainMap.nextId. apply findNextId_run; [exact Hkeys'|].
  rewrite Hnext, sub_of_Z. unfold Js.of_nat. rewrite strict_eq_of_Z.
  apply Z.eqb_neq. lia.
Qed.

Lemma add_all_dense (terrains : list Terrain) : forall (k : nat) m,
  TerrainMap.dense k m ->
  fst (TerrainMap.add_all terrains m) =
    JsArray.consecutive (1 + Z.of_nat k) (List.length terrains) /\
  TerrainMap.dense (k + List.length terrains)
    (snd (TerrainMap.add_all terrains m)).
Proof.
  induction terrains as [|terrain rest IH]; intros k m Hm.
  - simpl. now rewrite Nat.add_0_r.
  - destruct (add_dense terrain Hm) as [Hret Hafter].
    destruct (IH _ _ Hafter) as [Hids Hend].
    cbn [TerrainMap.add_all List.length fst snd JsArray.consecutive].
    rewrite Hret, Hids. split.
    + do 2 f_equal. lia.
    + now rewrite Nat.add_succ_r.
Qed.

(** C2: on a map that was just constructed, or just cleared, [n] calls of
    [add] in a row return the ids [1, 2, ..., n], in this order. *)
Theorem add_returns_1_to_n (terrains : list Terrain) m :
  fst (TerrainMap.add_all terrains (TerrainMap.create Terrain)) =
    JsArray.consecutive 1 (List.length terrains) /\
  fst (TerrainMap.add_all terrains (TerrainMap.clear m)) =
    JsArray.consecutive 1 (List.length terrains).
Proof.
  split.
  - exact (proj1 (add_all_dense terrains dense_create)).
  - exact (proj1 (add_all_dense terrains (dense_clear m))).
Qed.

(** *** Explicit assignment *)

(** C4: [set(id, terrain)] without override, on an id that is a key of the
    map or that is not a positive integer (0 and 1.5 are such ids), writes
    one error to the console, returns [undefined] and leaves the entries
    and the counter as they were.  The id is taken after the default for
    a missing id has been applied. *)
Theorem set_rejects_present_or_invalid (id : Js.value) terrain m :
  let id' := Js.nullish_coalesce id (Js.VNumber (TerrainMap.nextId m)) in
  TerrainMap.has_value id' m = true \/ ~ Js.positive_integer id' ->
  TerrainMap.set id terrain false m =
  TerrainMap.Outcome None
    [if TerrainMap.has_value id' m then TerrainMap.Error_id_present
     else TerrainMap.Error_id_invalid id'] m.
Proof.
  intros id' H. unfold TerrainMap.set. fold id'.
  destruct (TerrainMap.has_value id' m) eqn:Hhas; [reflexivity|].
  destruct H as [H|H]; [discriminate|]. simpl.
  destruct id' as [| |b|n|str]; try reflexivity.
  destruct (negb (Js.isInteger n) || Js.lt n (Js.of_Z 1)) eqn:Hcheck;
    [reflexivity|].
  now apply accepted_iff_positive_integer in Hcheck.
Qed.

Lemma get_store (n : Js.number) terrain m :
  TerrainMap.get n (TerrainMap.store n terrain m) = Some terrain.
Proof.
  unfold TerrainMap.get, TerrainMap.store; simpl.
  apply get_set_same, same_value_zero_refl.
Qed.

Lemma set_accepts (n : Js.number) terrain (override : bool) m :
  override = true \/ TerrainMap.has n m = false ->
  Js.positive_integer (Js.VNumber n) ->
  TerrainMap.set (Js.VNumber n) terrain override m =
  TerrainMap.Outcome (Some n) (TerrainMap.warn_if_exceeds n)
    (TerrainMap.store n terrain m).
Proof.
  intros Hfree Hpos. unfold TerrainMap.set; simpl.
  replace (negb override && TerrainMap.has n m) with false
    by (destruct Hfree as [-> | ->]; [reflexivity | now rewrite andb_false_r]).
  apply accepted_iff_positive_integer in Hpos. now rewrite Hpos.
Qed.

(** C9: an integer id above [MAX_TERRAINS = 31] is not refused.  [set],
    when the id is free or override is asked for, and [add], when the
    counter stands at this id, both store the terrain under the id and
    return it; all they write to the console is one warning. *)
Theorem above_maximum_only_warns (n : Js.number) terrain (override : bool) m :
  Js.positive_integer (Js.VNumber n) ->
  Js.gt n (Js.of_Z 31) = true ->
  (override = true \/ TerrainMap.has n m = false ->
   let o := TerrainMap.set (Js.VNumber n) terrain override m in
   TerrainMap.returned o = Some n /\
   TerrainMap.console o =
     [TerrainMap.Warn_exceeds_maximum n (Js.of_Z 31)] /\
   TerrainMap.get n (TerrainMap.after o) = Some terrain) /\
  (TerrainMap.nextId m = n ->
   let o := TerrainMap.add terrain m in
   TerrainMap.returned o = n /\
   TerrainMap.console o =
     [TerrainMap.Warn_exceeds_maximum n (Js.of_Z 31)] /\
   TerrainMap.get n (TerrainMap.after o) = Some terrain).
Proof.
  intros Hint Hgt.
  assert (Hwarn : TerrainMap.warn_if_exceeds n =
                  [TerrainMap.Warn_exceeds_maximum n (Js.of_Z 31)]).
  { unfold TerrainMap.warn_if_exceeds.
    change TerrainMap.MAX_TERRAINS with (Js.of_Z 31). now rewrite Hgt. }
  split.
  - intros Hfree o. subst o.
    rewrite set_accepts by assumption.
    simpl. rewrite Hwarn. repeat split. apply get_store.
  - intros Hnext o. subst o. unfold TerrainMap.add. rewrite Hnext. simpl.
    rewrite Hwarn. repeat split. apply get_store.
Qed.

(** C10: [set] called with [undefined] or [null] for the id is [set]
    called with the counter for the id.  When the checks of [set] let this
    id through, the call does what [add] does: the terrain is stored under
    the counter, and the counter is returned. *)
Theorem set_without_id_allocates terrain (override : bool) m :
  TerrainMap.set Js.VUndefined terrain override m =
    TerrainMap.set (Js.VNumber (TerrainMap.nextId m)) terrain override m /\
  TerrainMap.set Js.VNull terrain override m =
    TerrainMap.set (Js.VNumber (TerrainMap.nextId m)) terrain override m /\
  (override = true \/ TerrainMap.has (TerrainMap.nextId m) m = false ->
   Js.positive_integer (Js.VNumber (TerrainMap.nextId m)) ->
   let o := TerrainMap.set Js.VUndefined terrain override m in
   TerrainMap.returned o = Some (TerrainMap.nextId m) /\
   TerrainMap.get (TerrainMap.nextId m) (TerrainMap.after o) = Some terrain /\
   TerrainMap.returned o = Some (TerrainMap.returned (TerrainMap.add terrain m)) /\
   TerrainMap.console o = TerrainMap.console (TerrainMap.add terrain m) /\
   TerrainMap.after o = TerrainMap.after (TerrainMap.add terrain m)).
Proof.
  split; [reflexivity|]. split; [reflexivity|].
  intros Hfree Hpos o. subst o.
  change (TerrainMap.set Js.VUndefined terrain override m) with
    (TerrainMap.set (Js.VNumber (TerrainMap.nextId m)) terrain override m).
  rewrite set_accepts by assumption. simpl.
  repeat split. apply get_store.
Qed.

(** *** Where [#findNextId] misses the smallest free id *)

(** C1: after [add(a); add(b); delete(1)] on a new map, the id 1 is the
    smallest positive integer that is not a key, and [add(c)] assigns 3:
    the search starts its run at the smallest key, not at 1. *)
Theorem add_after_delete_misses_smallest (a b c : Terrain) :
  let m :=
    TerrainMap.after (TerrainMap.delete (Js.of_Z 1)
      (TerrainMap.after (TerrainMap.add b
        (TerrainMap.after (TerrainMap.add a (TerrainMap.create Terrain)))))) in
  TerrainMap.reachable m /\
  TerrainMap.smallest_unused m 1 /\
  TerrainMap.returned (TerrainMap.add c m) = Js.of_Z 3.
Proof.
  intros m. split; [|split].
  - apply TerrainMap.reachable_delete.
    do 2 apply TerrainMap.reachable_add. apply TerrainMap.reachable_create.
  - split; [lia|]. split; [reflexivity|]. intros y Hy. lia.
  - reflexivity.
Qed.

(** The same search on a map that [delete] has emptied: the counter
    becomes [NaN], and [add] stores the terrain under the key [NaN]. *)
Lemma add_after_emptying_delete (a b : Terrain) :
  let m :=
    TerrainMap.after (TerrainMap.delete (Js.of_Z 1)
      (TerrainMap.after (TerrainMap.add a (TerrainMap.create Terrain)))) in
  TerrainMap.entries m = [] /\
  TerrainMap.nextId m = Js.NaN /\
  TerrainMap.returned (TerrainMap.add b m) = Js.NaN /\
  TerrainMap.keys (TerrainMap.after (TerrainMap.add b m)) = [Js.NaN].
Proof. repeat split. Qed.

(** Where it does not miss: on a map whose keys are exactly [1, ..., k],
    [delete(id)] for an id from 2 to [k] sets the counter to this id. *)
Lemma delete_sets_counter_to_gap (j r : nat) m :
  TerrainMap.dense (S j + S r) m ->
  TerrainMap.delete (Js.of_Z (2 + Z.of_nat j)) m =
  TerrainMap.Outcome true []
    (TerrainMap.Build
       (snd (NativeMap.delete (Js.of_Z (2 + Z.of_nat j)) (TerrainMap.entries m)))
       (Js.of_Z (2 + Z.of_nat j))).
Proof.
  intros [Hkeys Hnext].
  assert (Hsplit : NativeMap.keys (TerrainMap.entries m) =
            JsArray.consecutive 1 (S j) ++
            Js.of_Z (2 + Z.of_nat j) ::
            JsArray.consecutive (2 + Z.of_nat j + 1) r).
  { fold (TerrainMap.keys m). rewrite Hkeys, consecutive_app.
    replace (1 + Z.of_nat (S j))%Z with (2 + Z.of_nat j)%Z by lia.
    reflexivity. }
  destruct (@keys_delete _ _ _ _ _ Hsplit) as [Hfst Hsnd].
  { apply outside_consecutive. lia. }
  unfold TerrainMap.delete. rewrite Hfst. cbn [negb].
  cbn [TerrainMap.nextId TerrainMap.entries].
  rewrite Hnext, gt_of_Z.
  destruct (Z.ltb_spec (2 + Z.of_nat j) (1 + Z.of_nat (S j + S r))); [|lia].
  do 2 f_equal.
  unfold TerrainMap.findNextId.
  rewrite size_keys_of. unfold TerrainMap.keys.
  cbn [TerrainMap.nextId TerrainMap.entries].
  rewrite Hsnd, length_app, !length_consecutive, sub_of_Z.
  unfold Js.of_nat. rewrite strict_eq_of_Z.
  destruct (Z.eqb_spec (Z.of_nat (S j + r)) (1 + Z.of_nat (S j + S r) - 1));
    [lia|].
  rewrite sort_two_runs, find_lastConsecutive_two_runs by lia.
  unfold Js.add_to_optional, Js.nullish_coalesce. rewrite add_of_Z.
  f_equal. lia.
Qed.

(** X13: on a map whose keys are exactly [1, ..., k], [delete(id)] for an
    id from 2 to [k] returns [true], and the next [add] gives the id
    back. *)
Lemma delete_then_add_reuses (j r : nat) terrain m :
  TerrainMap.dense (S j + S r) m ->
  let id := Js.of_Z (2 + Z.of_nat j) in
  TerrainMap.returned (TerrainMap.delete id m) = true /\
  TerrainMap.returned
    (TerrainMap.add terrain (TerrainMap.after (TerrainMap.delete id m))) = id.
Proof.
  intros Hm id. unfold id.
  rewrite (delete_sets_counter_to_gap Hm). split; reflexivity.
Qed.


(** C3: after [add(a); add(b); set(5, c)] the keys are 1, 2 and 5 and the
    counter is 3.  [delete(2)] leaves 2 as the only free id below 3, and
    the next [add] returns 4: the two entries left are as many as the
    counter minus one, so [#findNextId] takes its fast path. *)
Theorem add_after_delete_misses_gap (a b c d : Terrain) :
  let m :=
    TerrainMap.after (TerrainMap.set (Js.VNumber (Js.of_Z 5)) c false
      (TerrainMap.after (TerrainMap.add b
        (TerrainMap.after (TerrainMap.add a (TerrainMap.create Terrain)))))) in
  let m' := TerrainMap.after (TerrainMap.delete (Js.of_Z 2) m) in
  TerrainMap.reachable m /\
  TerrainMap.nextId m = Js.of_Z 3 /\
  TerrainMap.has (Js.of_Z 2) m = true /\
  TerrainMap.only_gap_below 3 2 m' /\
  TerrainMap.returned (TerrainMap.add d m') = Js.of_Z 4.
Proof.
  intros m m'. split; [|split; [|split; [|split]]]; try reflexivity.
  - apply TerrainMap.reachable_set.
    do 2 apply TerrainMap.reachable_add. apply TerrainMap.reachable_create.
  - intros y Hy.
    assert (Hcases : y = 1%Z \/ y = 2%Z) by lia.
    destruct Hcases as [-> | ->]; split; intros H;
      try reflexivity; try discriminate H.
Qed.

(** After the sequence of C3 and one more [add], the counter stands on 5,
    which is a key: the following [add] replaces the terrain stored under
    5. *)
Lemma add_overwrites_after_fast_path (a b c d e : Terrain) :
  let m :=
    TerrainMap.after (TerrainMap.add d
      (TerrainMap.after (TerrainMap.delete (Js.of_Z 2)
        (TerrainMap.after (TerrainMap.set (Js.VNumber (Js.of_Z 5)) c false
          (TerrainMap.after (TerrainMap.add b
            (TerrainMap.after (TerrainMap.add a
              (TerrainMap.create Terrain)))))))))) in
  TerrainMap.get (Js.of_Z 5) m = Some c /\
  TerrainMap.nextId m = Js.of_Z 5 /\
  TerrainMap.get (Js.of_Z 5) (TerrainMap.after (TerrainMap.add e m)) = Some e.
Proof. repeat split. Qed.

End TerrainMapFacts.

(** ** What the methods of [TerrainMap] keep, and how they compose *)

Section TerrainMapInvariants.

Import JsFacts NativeMapFacts JsArrayFacts.

Variable Terrain : Type.
Implicit Types (m : TerrainMap.t Terrain) (terrain : Terrain).

Lemma findNextId_sound m :
  TerrainMap.sound m -> Js.integer_or_NaN (TerrainMap.findNextId m).
Proof.
  intros [Hkeys Hnext]. unfold TerrainMap.findNextId.
  destruct (Js.strict_eq _ _) eqn:Hfast.
  - now apply integer_or_NaN_succ.
  - unfold Js.nullish_coalesce.
    destruct (JsArray.find_lastConsecutive _) as [k|] eqn:Hfind;
      cbn [Js.add_to_optional].
    + apply integer_or_NaN_succ.
      apply find_lastConsecutive_In in Hfind. rewrite In_sort in Hfind.
      rewrite Forall_forall in Hkeys. now apply Hkeys.
    + now left.
Qed.

Lemma store_sound (n : Js.number) terrain m :
  Js.integer_or_NaN n -> TerrainMap.sound m ->
  TerrainMap.sound (TerrainMap.store n terrain m).
Proof.
  intros Hn [Hkeys Hnext].
  assert (Hk : Forall Js.integer_or_NaN
            (NativeMap.keys (NativeMap.set n terrain (TerrainMap.entries m)))).
  { rewrite keys_set. destruct (NativeMap.has n _); [exact Hkeys|].
    apply Forall_app. split; [exact Hkeys | now constructor]. }
  unfold TerrainMap.store. split; [exact Hk|].
  apply findNextId_sound. split; assumption.
Qed.

(** X1: whatever the calls of [set], [add], [delete] and [clear] that
    made the map, every key is a positive integer or [NaN], and so is the
    counter: 0, a negative number or a fraction never becomes an id. *)
Theorem reachable_keys_are_ids m :
  TerrainMap.reachable m ->
  Forall Js.integer_or_NaN (TerrainMap.keys m) /\
  Js.integer_or_NaN (TerrainMap.nextId m).
Proof.
  induction 1 as [|id t o m _ IH|t m _ IH|m _ IH|id m _ IH].
  - split; [constructor | right; apply positive_integer_1].
  - unfold TerrainMap.set.
    destruct (negb o && _); [exact IH|].
    destruct (Js.nullish_coalesce id _) as [| |b|n|s]; try exact IH.
    destruct (negb (Js.isInteger n) || Js.lt n (Js.of_Z 1)) eqn:Hc;
      [exact IH|].
    simpl. apply store_sound; [|exact IH].
    right. now apply accepted_iff_positive_integer.
  - simpl. apply store_sound; [apply IH | exact IH].
  - split; [constructor | right; apply positive_integer_1].
  - unfold TerrainMap.delete.
    destruct (negb (fst _)); [exact IH|].
    destruct IH as [Hkeys Hnext].
    assert (Hk : Forall Js.integer_or_NaN
              (NativeMap.keys
                 (snd (NativeMap.delete id (TerrainMap.entries m))))).
    { rewrite Forall_forall in *. intros x Hx. apply Hkeys.
      revert Hx. apply keys_delete_incl. }
    cbn [TerrainMap.nextId TerrainMap.entries].
    destruct (Js.gt _ _); simpl.
    + split; [exact Hk|]. apply findNextId_sound. split; assumption.
    + split; assumption.
Qed.

Lemma store_all_positive (n : Js.number) terrain m :
  Js.positive_integer (Js.VNumber n) -> TerrainMap.all_positive m ->
  TerrainMap.all_positive (TerrainMap.store n terrain m).
Proof.
  intros Hn [Hkeys Hnext].
  assert (Hk : Forall (fun k => Js.positive_integer (Js.VNumber k))
            (NativeMap.keys (NativeMap.set n terrain (TerrainMap.entries m)))).
  { rewrite keys_set. destruct (NativeMap.has n _); [exact Hkeys|].
    apply Forall_app. split; [exact Hkeys | now constructor]. }
  unfold TerrainMap.store. split; [exact Hk|].
  cbn [TerrainMap.entries TerrainMap.nextId]. unfold TerrainMap.findNextId.
  cbn [TerrainMap.nextId]. destruct (Js.strict_eq _ _).
  - now apply positive_integer_succ.
  - unfold Js.nullish_coalesce, TerrainMap.keys. cbn [TerrainMap.entries].
    destruct (JsArray.find_lastConsecutive _) as [k|] eqn:Hfind;
      cbn [Js.add_to_optional].
    + apply positive_integer_succ.
      apply find_lastConsecutive_In in Hfind. rewrite In_sort in Hfind.
      rewrite Forall_forall in Hk. now apply Hk.
    + exfalso. revert Hfind. apply find_lastConsecutive_nonempty.
      intros Hnil. apply (f_equal (@List.length _)) in Hnil.
      rewrite length_sort, <- size_keys, size_set in Hnil.
      destruct (NativeMap.has n _) eqn:Hhas; [|discriminate].
      unfold NativeMap.size in Hnil.
      destruct (TerrainMap.entries m); [discriminate Hhas | discriminate Hnil].
Qed.

(** X2: as long as [delete] is not called, the keys and the counter are
    positive integers: the counter becomes [NaN] through [delete] only,
    and [add] returns a positive integer. *)
Theorem counter_positive_without_delete terrain m :
  TerrainMap.reachable_without_delete m ->
  Forall (fun k => Js.positive_integer (Js.VNumber k)) (TerrainMap.keys m) /\
  Js.positive_integer (Js.VNumber (TerrainMap.nextId m)) /\
  Js.positive_integer
    (Js.VNumber (TerrainMap.returned (TerrainMap.add terrain m))).
Proof.
  intros Hm.
  assert (H : TerrainMap.all_positive m).
  { induction Hm as [|id t o m _ IH|t m _ IH|m _ IH].
    - split; [constructor | apply positive_integer_1].
    - unfold TerrainMap.set.
      destruct (negb o && _); [exact IH|].
      destruct (Js.nullish_coalesce id _) as [| |b|n|s]; try exact IH.
      destruct (negb (Js.isInteger n) || Js.lt n (Js.of_Z 1)) eqn:Hc;
        [exact IH|].
      apply store_all_positive; [|exact IH].
      now apply accepted_iff_positive_integer.
    - apply store_all_positive; [apply IH | exact IH].
    - split; [constructor | apply positive_integer_1]. }
  destruct H as [Hkeys Hnext]. split; [exact Hkeys|]. split; exact Hnext.
Qed.

Lemma reachable_distinct m :
  TerrainMap.reachable m -> NativeMap.distinct (TerrainMap.keys m).
Proof.
  induction 1 as [|id t o m _ IH|t m _ IH|m _ IH|id m _ IH].
  - exact I.
  - unfold TerrainMap.set.
    destruct (negb o && _); [exact IH|].
    destruct (Js.nullish_coalesce id _) as [| |b|n|s]; try exact IH.
    destruct (negb (Js.isInteger n) || Js.lt n (Js.of_Z 1)); [exact IH|].
    apply distinct_set, IH.
  - apply distinct_set, IH.
  - exact I.
  - unfold TerrainMap.delete.
    destruct (negb (fst _)); [exact IH|].
    cbn [TerrainMap.nextId TerrainMap.entries].
    destruct (Js.gt _ _); apply distinct_delete, IH.
Qed.

Lemma after_delete_entries (id : Js.number) m :
  TerrainMap.entries (TerrainMap.after (TerrainMap.delete id m)) =
  snd (NativeMap.delete id (TerrainMap.entries m)).
Proof.
  unfold TerrainMap.delete.
  destruct (negb (fst _)) eqn:Hf.
  - apply negb_true_iff in Hf. rewrite fst_delete in Hf.
    simpl. now rewrite delete_absent.
  - cbn [TerrainMap.nextId TerrainMap.entries]. now destruct (Js.gt _ _).
Qed.

(** X3: on a map that the methods made, [delete(id)] returns whether the
    id was a key, the id is not a key afterwards, the size goes down by
    one exactly when it was, and nothing is written to the console. *)
Theorem delete_removes (id : Js.number) m :
  TerrainMap.reachable m ->
  let o := TerrainMap.delete id m in
  TerrainMap.returned o = TerrainMap.has id m /\
  TerrainMap.has id (TerrainMap.after o) = false /\
  TerrainMap.size (TerrainMap.after o) =
    (if TerrainMap.has id m then pred (TerrainMap.size m)
     else TerrainMap.size m) /\
  TerrainMap.console o = [].
Proof.
  intros Hm o. subst o. split; [|split; [|split]].
  - unfold TerrainMap.delete. rewrite fst_delete. fold (TerrainMap.has id m).
    destruct (TerrainMap.has id m); simpl; [|reflexivity].
    now destruct (Js.gt _ _).
  - unfold TerrainMap.has. rewrite after_delete_entries.
    apply has_delete_same. now apply reachable_distinct.
  - unfold TerrainMap.size, TerrainMap.has. rewrite after_delete_entries.
    apply size_delete.
  - unfold TerrainMap.delete. destruct (negb _); [reflexivity|].
    cbn [TerrainMap.nextId TerrainMap.entries]. now destruct (Js.gt _ _).
Qed.

(** X4: [delete(id)] for an id that is not a key returns [false] and
    changes neither the entries nor the counter. *)
Theorem delete_absent_changes_nothing (id : Js.number) m :
  TerrainMap.has id m = false ->
  TerrainMap.delete id m = TerrainMap.Outcome false [] m.
Proof.
  intros H. unfold TerrainMap.delete. rewrite fst_delete.
  fold (TerrainMap.has id m). now rewrite H.
Qed.

(** X5: a call for one id leaves the terrain under every other id as it
    was: [set(id, ...)], whether it succeeds or not, [delete(id)], and
    [add] when the counter stands at [id]. *)
Theorem other_entries_untouched (id id' : Js.number) terrain
    (override : bool) m :
  Js.same_value_zero id id' = false ->
  TerrainMap.get id'
    (TerrainMap.after (TerrainMap.set (Js.VNumber id) terrain override m)) =
    TerrainMap.get id' m /\
  TerrainMap.get id' (TerrainMap.after (TerrainMap.delete id m)) =
    TerrainMap.get id' m /\
  (TerrainMap.nextId m = id ->
   TerrainMap.get id' (TerrainMap.after (TerrainMap.add terrain m)) =
     TerrainMap.get id' m).
Proof.
  intros Hne. split; [|split].
  - unfold TerrainMap.set. cbn [Js.nullish_coalesce].
    destruct (negb override && _); [reflexivity|].
    destruct (negb (Js.isInteger id) || Js.lt id (Js.of_Z 1)); [reflexivity|].
    unfold TerrainMap.get, TerrainMap.store; simpl.
    now apply get_set_other.
  - unfold TerrainMap.get. rewrite after_delete_entries.
    now apply get_delete_other.
  - intros Hnext. unfold TerrainMap.get, TerrainMap.add, TerrainMap.store; simpl.
    rewrite Hnext. now apply get_set_other.
Qed.

(** X6: [set(id, terrain, true)] on an id that is a key puts the terrain
    in the place of the one that was there: the keys, their order and the
    size stay. *)
Theorem set_override_replaces (n : Js.number) terrain m :
  TerrainMap.has n m = true ->
  Js.positive_integer (Js.VNumber n) ->
  let o := TerrainMap.set (Js.VNumber n) terrain true m in
  TerrainMap.returned o = Some n /\
  TerrainMap.get n (TerrainMap.after o) = Some terrain /\
  TerrainMap.keys (TerrainMap.after o) = TerrainMap.keys m /\
  TerrainMap.size (TerrainMap.after o) = TerrainMap.size m.
Proof.
  intros Hhas Hpos o. subst o.
  apply accepted_iff_positive_integer in Hpos.
  unfold TerrainMap.set. cbn [Js.nullish_coalesce negb andb]. rewrite Hpos.
  cbn [TerrainMap.returned TerrainMap.after].
  split; [reflexivity|]. split.
  { unfold TerrainMap.get, TerrainMap.store; simpl.
    apply get_set_same, same_value_zero_refl. }
  unfold TerrainMap.keys, TerrainMap.size, TerrainMap.store; simpl.
  unfold TerrainMap.has in Hhas.
  rewrite keys_set, size_set, Hhas. split; reflexivity.
Qed.

(** X7: [set(id, terrain)] on a positive integer that is not a key adds
    the id after the keys that are there, and the size grows by one,
    with or without override. *)
Theorem set_free_appends (n : Js.number) terrain (override : bool) m :
  TerrainMap.has n m = false ->
  Js.positive_integer (Js.VNumber n) ->
  let o := TerrainMap.set (Js.VNumber n) terrain override m in
  TerrainMap.returned o = Some n /\
  TerrainMap.keys (TerrainMap.after o) = TerrainMap.keys m ++ [n] /\
  TerrainMap.size (TerrainMap.after o) = S (TerrainMap.size m).
Proof.
  intros Hhas Hpos o. subst o.
  apply accepted_iff_positive_integer in Hpos.
  unfold TerrainMap.set. cbn [Js.nullish_coalesce TerrainMap.has_value].
  rewrite Hhas, andb_false_r, Hpos.
  cbn [TerrainMap.returned TerrainMap.after].
  split; [reflexivity|].
  unfold TerrainMap.keys, TerrainMap.size, TerrainMap.store; simpl.
  unfold TerrainMap.has in Hhas.
  rewrite keys_set, size_set, Hhas. split; reflexivity.
Qed.

(** X8: [add] does not look whether the counter is a key.  When it is,
    the terrain stored under the counter is replaced, and the keys and
    the size stay. *)
Theorem add_replaces_when_counter_is_key terrain m :
  TerrainMap.has (TerrainMap.nextId m) m = true ->
  let o := TerrainMap.add terrain m in
  TerrainMap.returned o = TerrainMap.nextId m /\
  TerrainMap.get (TerrainMap.nextId m) (TerrainMap.after o) = Some terrain /\
  TerrainMap.keys (TerrainMap.after o) = TerrainMap.keys m /\
  TerrainMap.size (TerrainMap.after o) = TerrainMap.size m.
Proof.
  intros Hhas o. subst o. unfold TerrainMap.add.
  cbn [TerrainMap.returned TerrainMap.after].
  split; [reflexivity|]. split.
  { unfold TerrainMap.get, TerrainMap.store; simpl.
    apply get_set_same, same_value_zero_refl. }
  unfold TerrainMap.keys, TerrainMap.size, TerrainMap.store; simpl.
  unfold TerrainMap.has in Hhas.
  rewrite keys_set, size_set, Hhas. split; reflexivity.
Qed.

(** X9: on a map without entries whose counter is 1 (a new or a cleared
    map) or [NaN] (a map that [delete] has emptied), [set(z, terrain)]
    for an integer [z] from 1 on and below 2^53, where [z + 1] does not
    round, moves the counter to [z + 1]: the next [add] returns [z + 1],
    and the ids below [z] are passed over. *)
Theorem set_on_empty_moves_counter (z : Z) terrain (override : bool) m :
  TerrainMap.entries m = [] ->
  TerrainMap.nextId m = Js.of_Z 1 \/ TerrainMap.nextId m = Js.NaN ->
  (1 <= z < 2 ^ 53)%Z ->
  let o := TerrainMap.set (Js.VNumber (Js.of_Z z)) terrain override m in
  TerrainMap.returned o = Some (Js.of_Z z) /\
  TerrainMap.keys (TerrainMap.after o) = [Js.of_Z z] /\
  TerrainMap.nextId (TerrainMap.after o) = Js.of_Z (z + 1) /\
  TerrainMap.returned (TerrainMap.add terrain (TerrainMap.after o)) =
    Js.of_Z (z + 1).
Proof.
  intros Hempty Hnext Hz o. subst o. destruct m as [e next].
  simpl in Hempty, Hnext. subst e.
  unfold TerrainMap.set. cbn [Js.nullish_coalesce TerrainMap.has_value].
  unfold TerrainMap.has. cbn [TerrainMap.entries NativeMap.has existsb].
  rewrite andb_false_r, isInteger_of_Z, lt_of_Z.
  destruct (Z.ltb_spec z 1); [lia|]. cbn [negb orb].
  cbn [TerrainMap.returned TerrainMap.after].
  assert (Hcounter : TerrainMap.findNextId
            (TerrainMap.Build [(Js.of_Z z, terrain)] next) = Js.of_Z (z + 1)).
  { unfold TerrainMap.findNextId, TerrainMap.size, TerrainMap.keys.
    cbn [TerrainMap.entries TerrainMap.nextId NativeMap.size NativeMap.keys
         List.length map fst].
    replace (Js.strict_eq (Js.of_nat 1) (Js.sub next (Js.of_Z 1))) with false
      by (destruct Hnext as [-> | ->]; reflexivity).
    cbn [JsArray.sort fold_right JsArray.insert JsArray.find_lastConsecutive
         Js.add_to_optional Js.nullish_coalesce].
    apply add_of_Z. }
  unfold TerrainMap.store, TerrainMap.add.
  cbn [TerrainMap.entries TerrainMap.nextId NativeMap.set TerrainMap.returned].
  rewrite Hcounter. repeat split.
Qed.

(** *** The slow path of [#findNextId] on integer keys *)

Lemma findNextId_slow (zs : list Z) m :
  TerrainMap.keys m = map Js.of_Z zs ->
  NoDup zs -> zs <> [] ->
  Js.strict_eq (Js.of_nat (TerrainMap.size m))
    (Js.sub (TerrainMap.nextId m) (Js.of_Z 1)) = false ->
  exists h t k,
    JsArray.sort_Z zs = h :: t /\ JsArray.increasing (h :: t) /\
    TerrainMap.findNextId m = Js.of_Z (k + 1) /\
    (h <= k)%Z /\
    (forall y, (h <= y <= k)%Z -> In y zs) /\
    ~ In (k + 1)%Z zs.
Proof.
  intros Hkeys Hnd Hne Hslow.
  pose proof (increasing_sort_Z Hnd) as Hinc.
  destruct (JsArray.sort_Z zs) as [|h t] eqn:Hsort.
  { destruct zs as [|z zs]; [congruence|].
    assert (H : In z (JsArray.sort_Z (z :: zs))) by (apply In_sort_Z; now left).
    rewrite Hsort in H. contradiction. }
  destruct (find_lastConsecutive_increasing h t Hinc)
    as [k [Hfind [Hle [Hrun Hfree]]]].
  exists h, t, k. split; [reflexivity|]. split; [exact Hinc|].
  split; [|split; [exact Hle|split]].
  - unfold TerrainMap.findNextId. rewrite Hslow, Hkeys, sort_of_Z, Hsort, Hfind.
    unfold Js.add_to_optional, Js.nullish_coalesce. now rewrite add_of_Z.
  - intros y Hy. apply In_sort_Z. rewrite Hsort. now apply Hrun.
  - intros H. apply Hfree. rewrite <- Hsort. now apply In_sort_Z.
Qed.

Lemma has_of_keys (zs : list Z) (z : Z) m :
  TerrainMap.keys m = map Js.of_Z zs ->
  (TerrainMap.has (Js.of_Z z) m = true <-> In z zs).
Proof.
  intros Hkeys. unfold TerrainMap.has. rewrite has_keys.
  fold (TerrainMap.keys m). rewrite Hkeys. apply has_of_Z.
Qed.

(** When the run that starts at the smallest key starts at 1, the id
    after the run is the smallest free one. *)
Lemma run_from_1_smallest (zs : list Z) (h k : Z) (t : list Z) m :
  TerrainMap.keys m = map Js.of_Z zs ->
  JsArray.sort_Z zs = h :: t -> JsArray.increasing (h :: t) ->
  In 1%Z zs -> (forall z, In z zs -> (1 <= z)%Z) ->
  (h <= k)%Z -> (forall y, (h <= y <= k)%Z -> In y zs) ->
  ~ In (k + 1)%Z zs ->
  TerrainMap.smallest_unused m (k + 1).
Proof.
  intros Hkeys Hsort Hinc H1 Hpos Hle Hrun Hfree.
  assert (Hh : h = 1%Z).
  { assert (Hin : In h zs) by (apply In_sort_Z; rewrite Hsort; now left).
    apply Hpos in Hin.
    apply In_sort_Z in H1. rewrite Hsort in H1.
    destruct H1 as [H1|H1]; [lia|].
    pose proof (increasing_head _ _ Hinc _ H1). lia. }
  subst h. split; [lia|]. split.
  - apply not_true_is_false. now rewrite (has_of_keys _ _ _ Hkeys).
  - intros y Hy. apply (has_of_keys _ _ _ Hkeys), Hrun. lia.
Qed.

(** X10: on a map that is not empty and whose keys are distinct integers
    from 1 on and below 2^53, where no sum rounds, when the size is not
    the counter minus one, [#findNextId] answers with an id that is not a
    key, and whose predecessor is one: an [add] at this id replaces
    nothing. *)
Theorem findNextId_free (zs : list Z) m :
  TerrainMap.keys m = map Js.of_Z zs ->
  NoDup zs -> zs <> [] ->
  (forall z, In z zs -> (1 <= z < 2 ^ 53)%Z) ->
  Js.strict_eq (Js.of_nat (TerrainMap.size m))
    (Js.sub (TerrainMap.nextId m) (Js.of_Z 1)) = false ->
  exists c : Z,
    TerrainMap.findNextId m = Js.of_Z c /\
    TerrainMap.has (Js.of_Z c) m = false /\
    TerrainMap.has (Js.of_Z (c - 1)) m = true.
Proof.
  intros Hkeys Hnd Hne _ Hslow.
  destruct (findNextId_slow _ Hkeys Hnd Hne Hslow)
    as [h [t [k [_ [_ [Hnext [Hle [Hrun Hfree]]]]]]]].
  exists (k + 1)%Z. split; [exact Hnext|]. split.
  - apply not_true_is_false. now rewrite (has_of_keys _ _ _ Hkeys).
  - apply (has_of_keys _ _ _ Hkeys), Hrun. lia.
Qed.

(** X11: when, moreover, the keys are positive and 1 is among them,
    [#findNextId] answers with the smallest positive integer that is not
    a key. *)
Theorem findNextId_smallest (zs : list Z) m :
  TerrainMap.keys m = map Js.of_Z zs ->
  NoDup zs -> In 1%Z zs -> (forall z, In z zs -> (1 <= z)%Z) ->
  Js.strict_eq (Js.of_nat (TerrainMap.size m))
    (Js.sub (TerrainMap.nextId m) (Js.of_Z 1)) = false ->
  exists c : Z,
    TerrainMap.findNextId m = Js.of_Z c /\ TerrainMap.smallest_unused m c.
Proof.
  intros Hkeys Hnd H1 Hpos Hslow.
  assert (Hne : zs <> []) by (intros ->; contradiction).
  destruct (findNextId_slow _ Hkeys Hnd Hne Hslow)
    as [h [t [k [Hsort [Hinc [Hnext [Hle [Hrun Hfree]]]]]]]].
  exists (k + 1)%Z. split; [exact Hnext|].
  exact (@run_from_1_smallest zs h k t m Hkeys Hsort Hinc H1 Hpos Hle Hrun Hfree).
Qed.

(** X12: on a map with distinct positive integer keys, 1 among them,
    whose counter is [p] and whose size is not [p]: [delete(id)] for a
    key above 1 and below [p], followed by [add], assigns the smallest
    positive integer that is not a key. *)
Theorem delete_then_add_smallest (zs : list Z) (p id : Z) terrain m :
  TerrainMap.keys m = map Js.of_Z zs ->
  NoDup zs ->
  (forall z, In z zs -> (1 <= z)%Z) ->
  TerrainMap.nextId m = Js.of_Z p ->
  In 1%Z zs -> In id zs -> (1 < id < p)%Z ->
  Z.of_nat (List.length zs) <> p ->
  let m' := TerrainMap.after (TerrainMap.delete (Js.of_Z id) m) in
  exists c : Z,
    TerrainMap.returned (TerrainMap.add terrain m') = Js.of_Z c /\
    TerrainMap.smallest_unused m' c.
Proof.
  intros Hkeys Hnd Hpos Hnext H1 Hid Hrange Hlen m'.
  destruct (@keys_delete_of_Z _ id (TerrainMap.entries m) zs Hkeys Hnd Hid)
    as [zs' [Hk [Hnd' [Hiff Hlen']]]].
  assert (Hfst :
    fst (NativeMap.delete (Js.of_Z id) (TerrainMap.entries m)) = true).
  { rewrite fst_delete. apply (has_of_keys _ _ _ Hkeys), Hid. }
  set (d := TerrainMap.Build
              (snd (NativeMap.delete (Js.of_Z id) (TerrainMap.entries m)))
              (TerrainMap.nextId m)).
  assert (Hm' : m' =
            TerrainMap.Build (TerrainMap.entries d) (TerrainMap.findNextId d)).
  { unfold m', TerrainMap.delete. rewrite Hfst.
    cbn [negb TerrainMap.nextId TerrainMap.entries].
    replace (Js.gt (TerrainMap.nextId m) (Js.of_Z id)) with true;
      [reflexivity|].
    rewrite Hnext, gt_of_Z. symmetry. apply Z.ltb_lt. lia. }
  assert (Hkd : TerrainMap.keys d = map Js.of_Z zs') by exact Hk.
  assert (Hslow : Js.strict_eq (Js.of_nat (TerrainMap.size d))
                    (Js.sub (TerrainMap.nextId d) (Js.of_Z 1)) = false).
  { unfold TerrainMap.size, d. cbn [TerrainMap.entries TerrainMap.nextId].
    rewrite size_keys, Hk, length_map, Hnext, sub_of_Z.
    unfold Js.of_nat. rewrite strict_eq_of_Z. apply Z.eqb_neq. lia. }
  assert (H1' : In 1%Z zs') by (apply Hiff; split; [exact H1 | lia]).
  assert (Hpos' : forall z, In z zs' -> (1 <= z)%Z)
    by (intros z Hz; apply Hpos; now apply Hiff in Hz).
  assert (Hne : zs' <> []) by (intros ->; contradiction).
  destruct (findNextId_slow _ Hkd Hnd' Hne Hslow)
    as [h [t [k [Hsort [Hinc [Hc [Hle [Hrun Hfree]]]]]]]].
  exists (k + 1)%Z. rewrite Hm'. split; [exact Hc|].
  pose proof (@run_from_1_smallest zs' h k t d Hkd Hsort Hinc H1' Hpos' Hle Hrun Hfree)
    as [Hc1 [Hunused Hall]].
  split; [exact Hc1|]. split; [exact Hunused | exact Hall].
Qed.

End TerrainMapInvariants.

(** ** Facts about the flags of an active effect *)

Module ActiveEffectFacts.

Import ActiveEffect.

Lemma flag_eqb_eq (a b : flag) : flag_eqb a b = true <-> a = b.
Proof.
  destruct a as [x|], b as [y|]; simpl; try (split; congruence).
  rewrite String.eqb_eq. split; congruence.
Qed.

Lemma flag_eqb_refl (a : flag) : flag_eqb a a = true.
Proof. now apply flag_eqb_eq. Qed.

Lemma filed_under_eq scope key entry :
  filed_under scope key entry = true <-> fst entry = (scope, key).
Proof.
  destruct entry as [[s k] v]. unfold filed_under; simpl.
  rewrite andb_true_iff, String.eqb_eq, flag_eqb_eq.
  split; [intros [-> ->]; reflexivity | intros [= -> ->]; auto].
Qed.

(** A flag reads back what was last written under its scope and key. *)
Lemma getFlag_setFlag scope key value e :
  getFlag scope key (setFlag scope key value e) = value.
Proof.
  unfold getFlag, setFlag; simpl.
  induction (flags e) as [|entry rest IH]; simpl.
  - unfold filed_under; simpl. now rewrite String.eqb_refl, flag_eqb_refl.
  - destruct (filed_under scope key entry) eqn:Hentry; simpl.
    + unfold filed_under at 1; simpl.
      now rewrite String.eqb_refl, flag_eqb_refl.
    + now rewrite Hentry.
Qed.

(** A write under one key leaves the flags under the other keys alone. *)
Lemma getFlag_setFlag_other scope key key' value e :
  key <> key' ->
  getFlag scope key' (setFlag scope key value e) = getFlag scope key' e.
Proof.
  intros Hne. unfold getFlag, setFlag; simpl.
  assert (Hnew : filed_under scope key' (scope, key, value) = false).
  { apply not_true_is_false. rewrite filed_under_eq. simpl. congruence. }
  induction (flags e) as [|entry rest IH]; simpl.
  - now rewrite Hnew.
  - destruct (filed_under scope key entry) eqn:Hentry; simpl.
    + rewrite Hnew.
      replace (filed_under scope key' entry) with false; [reflexivity|].
      symmetry. apply not_true_is_false.
      apply filed_under_eq in Hentry. rewrite filed_under_eq, Hentry.
      congruence.
    + destruct (filed_under scope key' entry); [reflexivity | exact IH].
Qed.

End ActiveEffectFacts.

(** ** Facts about [Terrain] *)

Section TerrainFacts.

Import ActiveEffectFacts.

Variable MODULE_ID : string.
Variables ANCHOR_VALUE OFFSET RANGE_BELOW RANGE_ABOVE USER_VISIBLE COLOR : string.
Variable Number_toString : float -> string.

Implicit Types (this : Terrain.t) (value : ActiveEffect.data).

(** C7: with the numbers [offset], [rangeBelow] and [rangeAbove] in the
    flags, [elevationMinMax(a)] is [min = a + offset + rangeBelow] and
    [max = a + offset + rangeAbove], whatever the signs of the ranges,
    where [+] is the sum of binary64 numbers, taken from left to right as
    the source takes it; for the offset 5 and the ranges -10 and 20,
    [elevationMinMax(100)] is [min = 95], [max = 125]. *)
Theorem elevationMinMax_band (a o below above : float) this :
  Terrain.offset MODULE_ID OFFSET this = ActiveEffect.Number o ->
  Terrain.rangeBelow MODULE_ID RANGE_BELOW this = ActiveEffect.Number below ->
  Terrain.rangeAbove MODULE_ID RANGE_ABOVE this = ActiveEffect.Number above ->
  Terrain.elevationMinMax MODULE_ID OFFSET RANGE_BELOW RANGE_ABOVE
    Number_toString (ActiveEffect.Number a) this =
    Terrain.Build_MinMax (ActiveEffect.Number (a + o + below)%float)
                         (ActiveEffect.Number (a + o + above)%float) /\
  (o = 5%float -> below = (-10)%float -> above = 20%float ->
   Terrain.elevationMinMax MODULE_ID OFFSET RANGE_BELOW RANGE_ABOVE
     Number_toString (ActiveEffect.Number 100%float) this =
     Terrain.Build_MinMax (ActiveEffect.Number 95%float)
                          (ActiveEffect.Number 125%float)).
Proof.
  intros Ho Hbelow Habove. unfold Terrain.elevationMinMax.
  rewrite Ho, Hbelow, Habove. split; [reflexivity|].
  intros -> -> ->. reflexivity.
Qed.

(** Where the sums round: at the anchor 2^53 and the offset 1, the band
    of the ranges 0 and 1 is [min = max = 2^53]. *)
Lemma elevationMinMax_rounds this :
  Terrain.offset MODULE_ID OFFSET this = ActiveEffect.Number 1%float ->
  Terrain.rangeBelow MODULE_ID RANGE_BELOW this = ActiveEffect.Number 0%float ->
  Terrain.rangeAbove MODULE_ID RANGE_ABOVE this = ActiveEffect.Number 1%float ->
  Terrain.elevationMinMax MODULE_ID OFFSET RANGE_BELOW RANGE_ABOVE
    Number_toString (ActiveEffect.Number 9007199254740992%float) this =
  Terrain.Build_MinMax (ActiveEffect.Number 9007199254740992%float)
                       (ActiveEffect.Number 9007199254740992%float).
Proof.
  intros Ho Hbelow Habove. unfold Terrain.elevationMinMax.
  rewrite Ho, Hbelow, Habove. reflexivity.
Qed.

(** X17: for every attribute but the anchor, the setter and the [async]
    method leave the same terrain behind: they make the same write. *)
Lemma setters_agree (a : Terrain.attribute) value this :
  a <> Terrain.Anchor ->
  Terrain.setter MODULE_ID ANCHOR_VALUE OFFSET RANGE_BELOW RANGE_ABOVE
    USER_VISIBLE COLOR a value this =
  Terrain.dropped
    (Terrain.async_setter MODULE_ID OFFSET RANGE_BELOW RANGE_ABOVE
       USER_VISIBLE COLOR a value this).
Proof. destruct a; intros H; [contradiction | reflexivity ..]. Qed.

(** C8: the setter [anchor] writes under [FLAGS.ANCHOR.VALUE], where the
    getter reads; the method [setAnchor] writes under the object
    [FLAGS.ANCHOR], which is another key, and leaves what the getter reads
    as it was. *)
Theorem setAnchor_writes_elsewhere value this :
  Terrain.anchor MODULE_ID ANCHOR_VALUE
    (Terrain.set_anchor MODULE_ID ANCHOR_VALUE value this) = value /\
  Terrain.anchor MODULE_ID ANCHOR_VALUE
    (Terrain.dropped (Terrain.setAnchor MODULE_ID value this)) =
  Terrain.anchor MODULE_ID ANCHOR_VALUE this /\
  Terrain.getAEFlag MODULE_ID Terrain.FLAGS_ANCHOR
    (Terrain.dropped (Terrain.setAnchor MODULE_ID value this)) = value /\
  Terrain.FLAGS_ANCHOR <> Terrain.FLAGS_ANCHOR_VALUE ANCHOR_VALUE.
Proof.
  unfold Terrain.anchor, Terrain.set_anchor, Terrain.setAnchor.
  unfold Terrain.getAEFlag, Terrain.setAEFlag; simpl.
  split; [|split; [|split]].
  - apply getFlag_setFlag.
  - apply getFlag_setFlag_other. discriminate.
  - apply getFlag_setFlag.
  - discriminate.
Qed.

Section UpdateSource.

Variable ActiveEffect_updateSource :
  ActiveEffect.t -> Terrain.member -> Terrain.member.
Variable new_ActiveEffect : Terrain.member -> Terrain.member.

(** On an instance that the constructor made, [updateSource(json)] throws
    as soon as [json] has a key other than [id]. *)
Lemma updateSource_throws (json : Terrain.object) (e : ActiveEffect.t) :
  forallb (fun entry => String.eqb (fst entry) "id") json = false ->
  Terrain.updateSource ActiveEffect_updateSource new_ActiveEffect json
    (Terrain.create e) = Terrain.Throw Terrain.TypeError.
Proof.
  intros H. unfold Terrain.updateSource; simpl.
  replace (Terrain.updateSource_entries ActiveEffect_updateSource
             new_ActiveEffect json None)
    with (@Terrain.Throw (option Terrain.object) Terrain.TypeError);
    [reflexivity|].
  induction json as [|[key value] rest IH]; [discriminate|].
  simpl in *. destruct (String.eqb key "id"); [now apply IH | reflexivity].
Qed.

(** C6: on an instance that the constructor made, [this.config] is
    [undefined].  [toJSON()] throws a [TypeError] where it reads
    [out.activeEffect], and so does [updateSource(json)] at the first key
    of [json], be it [activeEffect] or the name of an attribute; a write
    through a setter changes nothing to this. *)
Theorem toJSON_throws (e : ActiveEffect.t) (value : Terrain.member)
    (rest : Terrain.object) (str : string) :
  Terrain.config (Terrain.create e) = None /\
  Terrain.toJSON (Terrain.create e) = Terrain.Throw Terrain.TypeError /\
  Terrain.toJSON (Terrain.set_name str (Terrain.create e)) =
    Terrain.Throw Terrain.TypeError /\
  Terrain.updateSource ActiveEffect_updateSource new_ActiveEffect
    (("activeEffect"%string, value) :: rest) (Terrain.create e) =
    Terrain.Throw Terrain.TypeError /\
  Terrain.updateSource ActiveEffect_updateSource new_ActiveEffect
    (("name"%string, value) :: rest) (Terrain.create e) =
    Terrain.Throw Terrain.TypeError.
Proof.
  split; [reflexivity|]. split; [reflexivity|]. split; [reflexivity|].
  split; apply updateSource_throws; reflexivity.
Qed.

End UpdateSource.

End TerrainFacts.

Section ReplaceFacts.

Variables Item Json : Type.
Variable Item_importFromJSON : Json -> Item -> Terrain.settled unit Item.

(** A failure of the one call [item.importFromJSON(json)] is the failure
    of [replaceFromJSON], with the same error, and the item is left as
    the call left it. *)
Lemma replaceFromJSON_rejected (json : Json) (item item' : Item)
    (e : Terrain.error) :
  Item_importFromJSON json item = Terrain.Rejected e item' ->
  Terrain.replaceFromJSON Item_importFromJSON json
    (Terrain.Build_World (Some item)) =
  Terrain.Rejected e (Terrain.Build_World (Some item')).
Proof. intros H. unfold Terrain.replaceFromJSON; simpl. now rewrite H. Qed.

(** Without the terrains item the call is rejected with a [TypeError]. *)
Lemma replaceFromJSON_without_item (json : Json) :
  Terrain.replaceFromJSON Item_importFromJSON json (Terrain.Build_World None) =
  Terrain.Rejected Terrain.TypeError (Terrain.Build_World None).
Proof. reflexivity. Qed.

End ReplaceFacts.

(** ** The attributes of a terrain *)

Section TerrainAttributeFacts.

Import ActiveEffectFacts.

Variable MODULE_ID : string.
Variables ANCHOR_VALUE OFFSET RANGE_BELOW RANGE_ABOVE USER_VISIBLE COLOR : string.
Variable Number_toString : float -> string.

Implicit Types (this : Terrain.t) (value : ActiveEffect.data).
Implicit Types (a b : Terrain.attribute).

Let getter :=
  Terrain.getter MODULE_ID ANCHOR_VALUE OFFSET RANGE_BELOW RANGE_ABOVE
    USER_VISIBLE COLOR.
Let setter :=
  Terrain.setter MODULE_ID ANCHOR_VALUE OFFSET RANGE_BELOW RANGE_ABOVE
    USER_VISIBLE COLOR.
Let async_setter :=
  Terrain.async_setter MODULE_ID OFFSET RANGE_BELOW RANGE_ABOVE
    USER_VISIBLE COLOR.
Let flag_of :=
  Terrain.flag_of ANCHOR_VALUE OFFSET RANGE_BELOW RANGE_ABOVE USER_VISIBLE COLOR.
Let elevationMinMax :=
  Terrain.elevationMinMax MODULE_ID OFFSET RANGE_BELOW RANGE_ABOVE
    Number_toString.

Lemma getter_flag a this :
  getter a this =
  ActiveEffect.getFlag MODULE_ID (ActiveEffect.Flag (flag_of a))
    (Terrain.activeEffect this).
Proof. destruct a; reflexivity. Qed.

Lemma setter_flag a value this :
  setter a value this =
  Terrain.written
    (ActiveEffect.setFlag MODULE_ID (ActiveEffect.Flag (flag_of a)) value
       (Terrain.activeEffect this)) this.
Proof. destruct a; reflexivity. Qed.

(** X15: each of the six attributes reads back the value its setter was
    given; so it does after the [async] method, for every attribute but
    the anchor. *)
Theorem getter_setter a value this :
  getter a (setter a value this) = value /\
  (a <> Terrain.Anchor ->
   getter a (Terrain.dropped (async_setter a value this)) = value).
Proof.
  split.
  - rewrite getter_flag, setter_flag. simpl. apply getFlag_setFlag.
  - intros Ha. destruct a; try contradiction; apply getFlag_setFlag.
Qed.

(** X16: when [FLAGS] gives two attributes different strings, the setter
    of the one leaves the other as it was; it leaves the name, the
    description, the icon and the id of the active effect as well. *)
Theorem setter_leaves_others a b value this :
  flag_of a <> flag_of b ->
  getter b (setter a value this) = getter b this /\
  Terrain.name (setter a value this) = Terrain.name this /\
  Terrain.description (setter a value this) = Terrain.description this /\
  Terrain.icon (setter a value this) = Terrain.icon this /\
  Terrain.id (setter a value this) = Terrain.id this.
Proof.
  intros Hne. rewrite !getter_flag, setter_flag. simpl.
  split; [|repeat split].
  apply getFlag_setFlag_other. congruence.
Qed.

Lemma nan_plus (x : float) : (nan + x)%float = nan.
Proof.
  apply Prim2SF_inj. rewrite add_spec.
  change (Prim2SF nan) with S754_nan. reflexivity.
Qed.

Lemma plus_nan (x : float) : (x + nan)%float = nan.
Proof.
  apply Prim2SF_inj. rewrite add_spec.
  change (Prim2SF nan) with S754_nan.
  unfold SF64add, SFadd. destruct (Prim2SF x); reflexivity.
Qed.

(** X19: when the offset flag is not set, [elevationMinMax] of a number
    gives [NaN] for [min] and for [max], whenever each range is
    [undefined], [null], a boolean or a number. *)
Theorem elevationMinMax_without_offset (anchorE : float) this :
  Terrain.offset MODULE_ID OFFSET this = ActiveEffect.Undefined ->
  ActiveEffect.adds_as_number
    (Terrain.rangeBelow MODULE_ID RANGE_BELOW this) ->
  ActiveEffect.adds_as_number
    (Terrain.rangeAbove MODULE_ID RANGE_ABOVE this) ->
  elevationMinMax (ActiveEffect.Number anchorE) this =
  Terrain.Build_MinMax (ActiveEffect.Number nan) (ActiveEffect.Number nan).
Proof.
  intros Ho Hb Ha. unfold elevationMinMax, Terrain.elevationMinMax.
  rewrite Ho.
  assert (He : ActiveEffect.plus Number_toString (ActiveEffect.Number anchorE)
                 ActiveEffect.Undefined = ActiveEffect.Number nan).
  { unfold ActiveEffect.plus, ActiveEffect.ToNumber. now rewrite plus_nan. }
  rewrite He.
  destruct (Terrain.rangeBelow _ _ _) as [| |x|d|s|s],
           (Terrain.rangeAbove _ _ _) as [| |y|d'|s'|s'];
    try contradiction;
    unfold ActiveEffect.plus, ActiveEffect.ToNumber;
    now rewrite !nan_plus.
Qed.

End TerrainAttributeFacts.

(** ** Facts about sets of strings and about the settings *)

Module JsSetFacts.

Import JsSet.

Implicit Types (x y : string) (s : JsSet.t) (l : list string).

Lemma has_In x s : has x s = true <-> In x s.
Proof.
  unfold has. rewrite existsb_exists. split.
  - intros [y [Hy Hxy]]. apply String.eqb_eq in Hxy. now subst.
  - intros H. exists x. split; [exact H | apply String.eqb_refl].
Qed.

Lemma has_add x y s : has x (add y s) = String.eqb x y || has x s.
Proof.
  unfold add. destruct (has y s) eqn:Hy.
  - destruct (String.eqb_spec x y) as [->|]; [now rewrite Hy | reflexivity].
  - unfold has. rewrite existsb_app. simpl.
    rewrite orb_false_r. apply orb_comm.
Qed.

Lemma NoDup_add y s : NoDup s -> NoDup (add y s).
Proof.
  intros Hs. unfold add. destruct (has y s) eqn:Hy; [exact Hs|].
  apply NoDup_app; [exact Hs | repeat constructor; intros [] |].
  intros x Hx [Heq|[]]. subst x.
  apply has_In in Hx. congruence.
Qed.

Lemma has_fold_add x l : forall s,
  has x (fold_left (fun s x => add x s) l s) =
  has x s || existsb (String.eqb x) l.
Proof.
  induction l as [|y l IH]; intros s; simpl; [now rewrite orb_false_r|].
  rewrite IH, has_add. now destruct (String.eqb x y), (has x s).
Qed.

(** [new Set(array)] has the elements of the array, each once. *)
Lemma has_of_array x l : has x (of_array l) = existsb (String.eqb x) l.
Proof. unfold of_array. now rewrite has_fold_add. Qed.

Lemma NoDup_fold_add l : forall s,
  NoDup s -> NoDup (fold_left (fun s x => add x s) l s).
Proof.
  induction l as [|y l IH]; intros s Hs; simpl; [exact Hs|].
  apply IH, NoDup_add, Hs.
Qed.

Lemma NoDup_of_array l : NoDup (of_array l).
Proof. apply NoDup_fold_add. constructor. Qed.

Lemma delete_keeps_others x y s : x <> y -> has x (delete y s) = has x s.
Proof.
  intros Hne. induction s as [|z s IH]; simpl; [reflexivity|].
  destruct (String.eqb_spec z y) as [->|Hzy]; simpl.
  - destruct (String.eqb_spec x y); [contradiction | reflexivity].
  - now rewrite IH.
Qed.

Lemma deleted_is_gone x s : NoDup s -> has x (delete x s) = false.
Proof.
  induction 1 as [|z s Hz Hs IH]; simpl; [reflexivity|].
  destruct (String.eqb_spec z x) as [->|Hzx]; simpl.
  - apply not_true_is_false. now rewrite has_In.
  - rewrite IH. destruct (String.eqb_spec x z); [congruence | reflexivity].
Qed.

Lemma NoDup_delete x s : NoDup s -> NoDup (delete x s).
Proof.
  induction 1 as [|z s Hz Hs IH]; simpl; [constructor|].
  destruct (String.eqb z x); [exact Hs|].
  constructor; [|exact IH].
  intros Hin. apply Hz. apply has_In in Hin. apply has_In.
  destruct (String.eqb_spec z x) as [->|Hne].
  - now rewrite deleted_is_gone in Hin.
  - now rewrite delete_keeps_others in Hin.
Qed.

(** An array without repetition goes through [new Set] unchanged. *)
Lemma of_array_NoDup l : NoDup l -> of_array l = l.
Proof.
  intros Hl. unfold of_array.
  assert (H : forall acc, NoDup (acc ++ l) ->
            fold_left (fun s x => add x s) l acc = acc ++ l).
  { clear Hl. induction l as [|y l IH]; intros acc Hnd; simpl.
    - now rewrite app_nil_r.
    - unfold add at 2. replace (has y acc) with false.
      + rewrite IH; rewrite <- app_assoc; [reflexivity | exact Hnd].
      + symmetry. apply not_true_is_false. rewrite has_In. intros Hin.
        apply NoDup_remove_2 in Hnd. apply Hnd, in_or_app. now left. }
  now apply (H []).
Qed.

Lemma includes_has x l :
  existsb (fun folder => String.eqb folder x) l = has x l.
Proof.
  induction l as [|f l IH]; simpl; [reflexivity|].
  now rewrite IH, String.eqb_sym.
Qed.

End JsSetFacts.

Section SettingsFacts.

Import JsSetFacts Settings.

Implicit Types (s : Settings.t) (id : string).

(** X20: after [addToFavorites(id)], [isFavorite] holds of [id], and of
    the other ids as before. *)
Theorem addToFavorites_isFavorite id id' s :
  isFavorite id' (addToFavorites id s) = String.eqb id' id || isFavorite id' s.
Proof.
  unfold isFavorite, addToFavorites, JsSet.to_array. simpl.
  rewrite of_array_NoDup by apply NoDup_add, NoDup_of_array.
  apply has_add.
Qed.

(** X21: after [removeFromFavorites(id)], [isFavorite] does not hold of
    [id], whatever the number of times the id was stored, and holds of the
    other ids as before. *)
Theorem removeFromFavorites_isFavorite id id' s :
  isFavorite id' (removeFromFavorites id s) =
  negb (String.eqb id' id) && isFavorite id' s.
Proof.
  unfold isFavorite, removeFromFavorites, JsSet.to_array. simpl.
  rewrite of_array_NoDup by apply NoDup_delete, NoDup_of_array.
  destruct (String.eqb_spec id' id) as [->|Hne]; simpl.
  - apply deleted_is_gone, NoDup_of_array.
  - now apply delete_keeps_others.
Qed.

(** X22: [addToFavorites] and [removeFromFavorites] store an array in
    which no id comes twice, and [addToFavorites(id)] a second time
    changes nothing. *)
Theorem favorites_stay_distinct id s :
  NoDup (favorites (addToFavorites id s)) /\
  NoDup (favorites (removeFromFavorites id s)) /\
  addToFavorites id (addToFavorites id s) = addToFavorites id s.
Proof.
  split; [|split].
  - apply NoDup_add, NoDup_of_array.
  - apply NoDup_delete, NoDup_of_array.
  - unfold addToFavorites, JsSet.to_array. simpl.
    rewrite of_array_NoDup by apply NoDup_add, NoDup_of_array.
    unfold set_favorites; simpl. f_equal.
    unfold JsSet.add at 1. now rewrite has_add, String.eqb_refl.
Qed.

(** X23: after [addExpandedFolder(id)], the folder [id] is expanded, the
    other folders are as before, and no folder is stored twice. *)
Theorem addExpandedFolder_isFolderExpanded id id' s :
  isFolderExpanded id' (addExpandedFolder id s) =
    String.eqb id' id || isFolderExpanded id' s /\
  NoDup (expandedFolders (addExpandedFolder id s)).
Proof.
  unfold isFolderExpanded, addExpandedFolder, expandedFolders, JsSet.to_array.
  simpl. split; [|apply NoDup_of_array].
  rewrite !includes_has, has_of_array, existsb_app. simpl.
  rewrite orb_false_r. apply orb_comm.
Qed.

(** X24: after [removeExpandedFolder(id)], the folder [id] is not
    expanded, whatever the number of times it was stored, and the other
    folders are as before; after [clearExpandedFolders()] no folder is
    expanded. *)
Theorem removeExpandedFolder_isFolderExpanded id id' s :
  isFolderExpanded id' (removeExpandedFolder id s) =
    negb (String.eqb id' id) && isFolderExpanded id' s /\
  isFolderExpanded id' (clearExpandedFolders s) = false.
Proof.
  split; [|reflexivity].
  unfold isFolderExpanded, removeExpandedFolder, expandedFolders. simpl.
  induction (expanded_folders s) as [|f l IH]; simpl.
  - now rewrite andb_false_r.
  - destruct (String.eqb_spec f id) as [->|Hf]; simpl.
    + rewrite IH. rewrite (String.eqb_sym id id').
      destruct (String.eqb id' id); reflexivity.
    + rewrite IH. destruct (String.eqb_spec f id') as [->|Hf']; simpl.
      * destruct (String.eqb_spec id' id); [contradiction | reflexivity].
      * reflexivity.
Qed.

Variable new_id : list Item -> string.

Lemma find_last_added {A : Type} (f : A -> bool) (l : list A) (x : A) :
  f x = true -> exists y, find f (l ++ [x]) = Some y.
Proof.
  intros Hx. induction l as [|z l IH]; simpl.
  - rewrite Hx. eauto.
  - destruct (f z); eauto.
Qed.

(** X25: after [initializeTerrainsItem()] the terrains item is there,
    whatever id the host gives to the item it creates, and a second call
    changes nothing. *)
Theorem initializeTerrainsItem_defined (g : Game) :
  terrainEffectsItem (initializeTerrainsItem new_id g) <> None /\
  initializeTerrainsItem new_id (initializeTerrainsItem new_id g) =
  initializeTerrainsItem new_id g.
Proof.
  assert (H : terrainEffectsItem (initializeTerrainsItem new_id g) <> None).
  { unfold initializeTerrainsItem.
    destruct (terrainEffectsItem g) eqn:Hg; [congruence|].
    unfold terrainEffectsItem, items_get; simpl.
    destruct (find_last_added
                (fun item => String.eqb (item_id item) (new_id (items g)))
                (items g)
                (Build_Item (new_id (items g)) "Terrains"
                   "icons/svg/mountain.svg" "base")) as [y Hy].
    - apply String.eqb_refl.
    - rewrite Hy. discriminate. }
  split; [exact H|].
  unfold initializeTerrainsItem at 1.
  destruct (terrainEffectsItem (initializeTerrainsItem new_id g));
    [reflexivity | congruence].
Qed.

End SettingsFacts.

(** ** The theorems at sample inputs *)

Local Open Scope string_scope.

Lemma set_rejects_present_or_invalid_witness :
  (TerrainMap.has_value (Js.VNumber (Js.Fin (3 # 2))) Sample.two_terrains = true \/
   ~ Js.positive_integer (Js.VNumber (Js.Fin (3 # 2)))) /\
  TerrainMap.set (Js.VNumber (Js.Fin (3 # 2))) "lava" false Sample.two_terrains =
  TerrainMap.Outcome None
    [TerrainMap.Error_id_invalid (Js.VNumber (Js.Fin (3 # 2)))]
    Sample.two_terrains.
Proof.
  assert (H : TerrainMap.has_value (Js.VNumber (Js.Fin (3 # 2)))
                Sample.two_terrains = true \/
              ~ Js.positive_integer (Js.VNumber (Js.Fin (3 # 2)))).
  { right. intros [z [Hz Hq]]. unfold Js.is_integer, Qeq in Hq.
    simpl in Hq. lia. }
  split; [exact H|].
  exact (set_rejects_present_or_invalid (Js.VNumber (Js.Fin (3 # 2))) "lava"
           Sample.two_terrains H).
Defined.

(** [set(0, t)] and [set(1, t)] on the same map: 0 is not positive, and 1
    is a key. *)
Example set_zero_is_invalid :
  TerrainMap.set (Js.VNumber (Js.of_Z 0)) "lava" false Sample.two_terrains =
  TerrainMap.Outcome None
    [TerrainMap.Error_id_invalid (Js.VNumber (Js.of_Z 0))] Sample.two_terrains.
Proof. reflexivity. Qed.

Example set_one_is_present :
  TerrainMap.set (Js.VNumber (Js.of_Z 1)) "lava" false Sample.two_terrains =
  TerrainMap.Outcome None [TerrainMap.Error_id_present] Sample.two_terrains.
Proof. reflexivity. Qed.

Lemma above_maximum_only_warns_witness :
  Js.positive_integer (Js.VNumber (Js.of_Z 40)) /\
  Js.gt (Js.of_Z 40) (Js.of_Z 31) = true /\
  TerrainMap.returned
    (TerrainMap.set (Js.VNumber (Js.of_Z 40)) "lava" false Sample.two_terrains) =
  Some (Js.of_Z 40).
Proof.
  assert (Hpos : Js.positive_integer (Js.VNumber (Js.of_Z 40))).
  { exists 40%Z. split; [lia | reflexivity]. }
  split; [exact Hpos|]. split; [reflexivity|].
  exact (proj1 (proj1 (above_maximum_only_warns "lava" false
                         Sample.two_terrains Hpos eq_refl)
                  (or_intror eq_refl))).
Defined.

Lemma set_without_id_allocates_witness :
  Js.positive_integer (Js.VNumber (TerrainMap.nextId Sample.two_terrains)) /\
  TerrainMap.returned
    (TerrainMap.set Js.VUndefined "lava" false Sample.two_terrains) =
  Some (Js.of_Z 3).
Proof.
  assert (Hpos : Js.positive_integer
                   (Js.VNumber (TerrainMap.nextId Sample.two_terrains))).
  { exists 3%Z. split; [lia | reflexivity]. }
  split; [exact Hpos|].
  exact (proj1 (proj2 (proj2 (set_without_id_allocates "lava" false
                                Sample.two_terrains))
                  (or_intror eq_refl) Hpos)).
Defined.

Lemma elevationMinMax_band_witness :
  Terrain.offset "terrainmapper" "offset" Sample.marsh =
    ActiveEffect.Number 5%float /\
  Terrain.rangeBelow "terrainmapper" "rangeBelow" Sample.marsh =
    ActiveEffect.Number (-10)%float /\
  Terrain.rangeAbove "terrainmapper" "rangeAbove" Sample.marsh =
    ActiveEffect.Number 20%float /\
  Terrain.elevationMinMax "terrainmapper" "offset" "rangeBelow" "rangeAbove"
    Sample.decimal (ActiveEffect.Number 100%float) Sample.marsh =
  Terrain.Build_MinMax (ActiveEffect.Number 95%float)
                       (ActiveEffect.Number 125%float).
Proof.
  do 3 (split; [reflexivity|]).
  exact (proj1 (@elevationMinMax_band "terrainmapper" "offset" "rangeBelow"
                  "rangeAbove" Sample.decimal 100%float 5%float (-10)%float
                  20%float Sample.marsh eq_refl eq_refl eq_refl)).
Defined.

Lemma reachable_two_terrains : TerrainMap.reachable Sample.two_terrains.
Proof.
  do 2 apply TerrainMap.reachable_add. apply TerrainMap.reachable_create.
Qed.

Lemma reachable_keys_are_ids_witness :
  TerrainMap.reachable Sample.two_terrains /\
  Js.integer_or_NaN (TerrainMap.nextId Sample.two_terrains).
Proof.
  split; [exact reachable_two_terrains|].
  exact (proj2 (@reachable_keys_are_ids string Sample.two_terrains
                  reachable_two_terrains)).
Defined.

Lemma counter_positive_without_delete_witness :
  TerrainMap.reachable_without_delete Sample.two_terrains /\
  Js.positive_integer (Js.VNumber (TerrainMap.nextId Sample.two_terrains)).
Proof.
  assert (H : TerrainMap.reachable_without_delete Sample.two_terrains).
  { do 2 apply TerrainMap.without_delete_add.
    apply TerrainMap.without_delete_create. }
  split; [exact H|].
  exact (proj1 (proj2 (@counter_positive_without_delete string "lava"
                         Sample.two_terrains H))).
Defined.

Lemma delete_removes_witness :
  TerrainMap.reachable Sample.two_terrains /\
  TerrainMap.has (Js.of_Z 1)
    (TerrainMap.after (TerrainMap.delete (Js.of_Z 1) Sample.two_terrains)) =
  false.
Proof.
  split; [exact reachable_two_terrains|].
  exact (proj1 (proj2 (@delete_removes string (Js.of_Z 1)
                         Sample.two_terrains reachable_two_terrains))).
Defined.

Lemma delete_absent_changes_nothing_witness :
  TerrainMap.has (Js.of_Z 7) Sample.two_terrains = false /\
  TerrainMap.delete (Js.of_Z 7) Sample.two_terrains =
  TerrainMap.Outcome false [] Sample.two_terrains.
Proof.
  split; [reflexivity|].
  exact (@delete_absent_changes_nothing string (Js.of_Z 7)
           Sample.two_terrains eq_refl).
Defined.

Lemma other_entries_untouched_witness :
  Js.same_value_zero (Js.of_Z 1) (Js.of_Z 2) = false /\
  TerrainMap.get (Js.of_Z 2)
    (TerrainMap.after (TerrainMap.delete (Js.of_Z 1) Sample.two_terrains)) =
  TerrainMap.get (Js.of_Z 2) Sample.two_terrains.
Proof.
  split; [reflexivity|].
  exact (proj1 (proj2 (@other_entries_untouched string (Js.of_Z 1)
                         (Js.of_Z 2) "lava" false Sample.two_terrains
                         eq_refl))).
Defined.

Lemma set_override_replaces_witness :
  TerrainMap.has (Js.of_Z 1) Sample.two_terrains = true /\
  Js.positive_integer (Js.VNumber (Js.of_Z 1)) /\
  TerrainMap.get (Js.of_Z 1)
    (TerrainMap.after
       (TerrainMap.set (Js.VNumber (Js.of_Z 1)) "lava" true
          Sample.two_terrains)) = Some "lava".
Proof.
  split; [reflexivity|]. split; [exact JsFacts.positive_integer_1|].
  exact (proj1 (proj2 (@set_override_replaces string (Js.of_Z 1) "lava"
                         Sample.two_terrains eq_refl
                         JsFacts.positive_integer_1))).
Defined.

Lemma set_free_appends_witness :
  TerrainMap.has (Js.of_Z 5) Sample.two_terrains = false /\
  TerrainMap.size
    (TerrainMap.after
       (TerrainMap.set (Js.VNumber (Js.of_Z 5)) "ice" false
          Sample.two_terrains)) = 3%nat.
Proof.
  assert (Hpos : Js.positive_integer (Js.VNumber (Js.of_Z 5))).
  { exists 5%Z. split; [lia | reflexivity]. }
  split; [reflexivity|].
  exact (proj2 (proj2 (@set_free_appends string (Js.of_Z 5) "ice" false
                         Sample.two_terrains eq_refl Hpos))).
Defined.

Lemma add_replaces_when_counter_is_key_witness :
  TerrainMap.has (TerrainMap.nextId Sample.counter_on_key)
    Sample.counter_on_key = true /\
  TerrainMap.size
    (TerrainMap.after (TerrainMap.add "mud" Sample.counter_on_key)) =
  TerrainMap.size Sample.counter_on_key.
Proof.
  split; [reflexivity|].
  exact (proj2 (proj2 (proj2 (@add_replaces_when_counter_is_key string "mud"
                                Sample.counter_on_key eq_refl)))).
Defined.

Lemma set_on_empty_moves_counter_witness :
  TerrainMap.entries (TerrainMap.create string) = [] /\
  TerrainMap.returned
    (TerrainMap.add "lava"
       (TerrainMap.after
          (TerrainMap.set (Js.VNumber (Js.of_Z 5)) "lava" false
             (TerrainMap.create string)))) = Js.of_Z 6.
Proof.
  split; [reflexivity|].
  assert (Hz : (1 <= 5 < 2 ^ 53)%Z) by lia.
  exact (proj2 (proj2 (proj2 (@set_on_empty_moves_counter string 5 "lava" false
                                (TerrainMap.create string) eq_refl
                                (or_introl eq_refl) Hz)))).
Defined.

Lemma NoDup_1_2 : NoDup [1%Z; 2%Z].
Proof. repeat constructor; simpl; intuition lia. Qed.

Lemma NoDup_1_2_3 : NoDup [1%Z; 2%Z; 3%Z].
Proof. repeat constructor; simpl; intuition lia. Qed.

Lemma findNextId_free_witness :
  NoDup [1%Z; 2%Z] /\
  exists c : Z,
    TerrainMap.findNextId Sample.before_recount = Js.of_Z c /\
    TerrainMap.has (Js.of_Z c) Sample.before_recount = false /\
    TerrainMap.has (Js.of_Z (c - 1)) Sample.before_recount = true.
Proof.
  split; [exact NoDup_1_2|].
  apply (@findNextId_free string [1%Z; 2%Z] Sample.before_recount);
    [reflexivity | exact NoDup_1_2 | discriminate | | reflexivity].
  intros z Hz. simpl in Hz. intuition lia.
Defined.

Lemma findNextId_smallest_witness :
  In 1%Z [1%Z; 2%Z] /\
  exists c : Z,
    TerrainMap.findNextId Sample.before_recount = Js.of_Z c /\
    TerrainMap.smallest_unused Sample.before_recount c.
Proof.
  split; [now left|].
  apply (@findNextId_smallest string [1%Z; 2%Z] Sample.before_recount);
    [reflexivity | exact NoDup_1_2 | now left | | reflexivity].
  intros z Hz. simpl in Hz. intuition lia.
Defined.

Lemma delete_then_add_smallest_witness :
  In 2%Z [1%Z; 2%Z; 3%Z] /\
  exists c : Z,
    TerrainMap.returned
      (TerrainMap.add "mud"
         (TerrainMap.after
            (TerrainMap.delete (Js.of_Z 2) Sample.three_terrains))) =
      Js.of_Z c /\
    TerrainMap.smallest_unused
      (TerrainMap.after (TerrainMap.delete (Js.of_Z 2) Sample.three_terrains))
      c.
Proof.
  split; [right; now left|].
  apply (@delete_then_add_smallest string [1%Z; 2%Z; 3%Z] 4 2 "mud"
           Sample.three_terrains);
    [reflexivity | exact NoDup_1_2_3 | | reflexivity | now left
    | right; now left | lia | simpl; lia].
  intros z Hz. simpl in Hz. intuition lia.
Defined.

Lemma dense_two_terrains : TerrainMap.dense 2 Sample.two_terrains.
Proof. split; reflexivity. Qed.

Lemma delete_then_add_reuses_witness :
  TerrainMap.dense (1 + 1) Sample.two_terrains /\
  TerrainMap.returned
    (TerrainMap.add "lava"
       (TerrainMap.after (TerrainMap.delete (Js.of_Z 2) Sample.two_terrains))) =
  Js.of_Z 2.
Proof.
  split; [exact dense_two_terrains|].
  exact (proj2 (@delete_then_add_reuses string 0 0 "lava"
                  Sample.two_terrains dense_two_terrains)).
Defined.


Lemma getter_setter_witness :
  Terrain.Offset <> Terrain.Anchor /\
  Terrain.offset "terrainmapper" "offset"
    (Terrain.dropped
       (Terrain.setOffset "terrainmapper" "offset"
          (ActiveEffect.Number 7%float) Sample.marsh)) =
  ActiveEffect.Number 7%float.
Proof.
  assert (H : Terrain.Offset <> Terrain.Anchor) by discriminate.
  split; [exact H|].
  exact (proj2 (@getter_setter "terrainmapper" "anchor" "offset" "rangeBelow"
                  "rangeAbove" "userVisible" "color" Terrain.Offset
                  (ActiveEffect.Number 7%float) Sample.marsh) H).
Defined.

Lemma setter_leaves_others_witness :
  "offset" <> "rangeBelow" /\
  Terrain.rangeBelow "terrainmapper" "rangeBelow"
    (Terrain.set_offset "terrainmapper" "offset"
       (ActiveEffect.Number 7%float) Sample.marsh) =
  Terrain.rangeBelow "terrainmapper" "rangeBelow" Sample.marsh.
Proof.
  assert (H : "offset" <> "rangeBelow") by discriminate.
  split; [exact H|].
  exact (proj1 (@setter_leaves_others "terrainmapper" "anchor" "offset"
                  "rangeBelow" "rangeAbove" "userVisible" "color"
                  Terrain.Offset Terrain.RangeBelow
                  (ActiveEffect.Number 7%float) Sample.marsh H)).
Defined.

Lemma setters_agree_witness :
  Terrain.Color <> Terrain.Anchor /\
  Terrain.set_color "terrainmapper" "color" (ActiveEffect.Text "#00FF00") Sample.marsh =
  Terrain.dropped
    (Terrain.setColor "terrainmapper" "color" (ActiveEffect.Text "#00FF00")
       Sample.marsh).
Proof.
  assert (H : Terrain.Color <> Terrain.Anchor) by discriminate.
  split; [exact H|].
  exact (@setters_agree "terrainmapper" "anchor" "offset" "rangeBelow"
           "rangeAbove" "userVisible" "color" Terrain.Color
           (ActiveEffect.Text "#00FF00") Sample.marsh H).
Defined.

Lemma elevationMinMax_without_offset_witness :
  Terrain.offset "terrainmapper" "offset" Sample.bare =
    ActiveEffect.Undefined /\
  Terrain.elevationMinMax "terrainmapper" "offset" "rangeBelow" "rangeAbove"
    Sample.decimal (ActiveEffect.Number 100%float) Sample.bare =
  Terrain.Build_MinMax (ActiveEffect.Number nan) (ActiveEffect.Number nan).
Proof.
  split; [reflexivity|].
  exact (@elevationMinMax_without_offset "terrainmapper" "offset"
           "rangeBelow" "rangeAbove" Sample.decimal 100%float Sample.bare
           eq_refl I I).
Defined.
